(** * Recent Changes Patrol (rcp.js): a shallow embedding and its properties

    The gadget polls the MediaWiki API for unpatrolled changes and shows
    them in a sidebar portlet.  This development embeds [src/rcp.js]:

    - the JavaScript values the script handles (strings as sequences of
      UTF-16 code units, numbers, arrays, objects as finite maps of their
      own properties), with the conversions the script relies on
      ([ToNumber], [Object.assign], [JSON.parse]);
    - [getConf], [getPreferences], [setPreferences], [getApiListType],
      [getUnpatrolled], [createPortletEntry], [populateList],
      [refreshList], the handlers of the options dialog and the
      [visibilitychange] listener, as functions of a state and exception
      monad over the page state (settings store, timers, portlet list).

    Numbers are exact rationals: IEEE-754 rounding and the sign of zero are
    not represented.  Sizes, identifiers, counts and millisecond clocks are
    integers far below 2^53, where JavaScript arithmetic is exact.  A text
    or a product whose exact value is no such integer ([32.3 * 1000],
    [20.0000000000000000001]) has another value in JavaScript than here;
    the statements that fix the value of a number the script computes are
    made for the safe integers ([isSafeInteger]).

    Objects are the maps of their own properties.  [Object.assign] from a
    source with an own property [__proto__] that holds an object replaces
    the prototype of the target, through which JavaScript then reads the
    properties the target does not own; the prototype is not represented,
    and the statements about what the script reads from the preferences
    are made for properties the preferences own, or for sources that do
    not replace the prototype ([sets_prototype]). *)

From Stdlib Require Import ZArith QArith Qabs Lia List Ascii String.
From stdpp Require Import gmap list fin_maps strings.

Set Warnings "-register-all".
Close Scope Q_scope.

(** ** Strings

    A JavaScript string is a sequence of 16-bit code units. *)

(** An ASCII literal of the script, as code units. *)
Definition js (s : string) : list N :=
  N_of_ascii <$> list_ascii_of_string s.

Arguments js s%_string.

(** ** Numbers *)

Inductive number :=
  | NaN
  | PInf
  | NInf
  | Fin (q : Q).

(** Finite values are kept in lowest terms, so that equal numbers are
    equal terms. *)
Definition finite (q : Q) : number := Fin (Qred q).

Definition Int (z : Z) : number := Fin (z # 1).

Definition num_neg (a : number) : number :=
  match a with
  | NaN => NaN
  | PInf => NInf
  | NInf => PInf
  | Fin q => finite (Qopp q)
  end.

Definition num_add (a b : number) : number :=
  match a, b with
  | NaN, _ | _, NaN => NaN
  | PInf, NInf | NInf, PInf => NaN
  | PInf, _ | _, PInf => PInf
  | NInf, _ | _, NInf => NInf
  | Fin p, Fin q => finite (Qplus p q)
  end.

Definition num_sub (a b : number) : number := num_add a (num_neg b).

Definition Qsign (q : Q) : comparison := Z.compare (Qnum q) 0.

Definition num_mul (a b : number) : number :=
  let inf_times (pos : bool) (q : Q) :=
    match Qsign q with
    | Eq => NaN
    | Gt => if pos then PInf else NInf
    | Lt => if pos then NInf else PInf
    end in
  match a, b with
  | NaN, _ | _, NaN => NaN
  | PInf, PInf | NInf, NInf => PInf
  | PInf, NInf | NInf, PInf => NInf
  | PInf, Fin q | Fin q, PInf => inf_times true q
  | NInf, Fin q | Fin q, NInf => inf_times false q
  | Fin p, Fin q => finite (Qmult p q)
  end.

(** [Math.abs] on a number. *)
Definition num_abs (a : number) : number :=
  match a with
  | NaN => NaN
  | PInf | NInf => PInf
  | Fin q => finite (Qabs q)
  end.

(** Ordering; [None] when an operand is [NaN]. *)
Definition num_compare (a b : number) : option comparison :=
  match a, b with
  | NaN, _ | _, NaN => None
  | PInf, PInf | NInf, NInf => Some Eq
  | PInf, _ | _, NInf => Some Gt
  | NInf, _ | _, PInf => Some Lt
  | Fin p, Fin q => Some (Qcompare p q)
  end.

(** The relational operators [>], [<], [>=], [<=]: false on [NaN]. *)
Definition num_gt (a b : number) : bool :=
  match num_compare a b with Some Gt => true | _ => false end.

Definition num_lt (a b : number) : bool :=
  match num_compare a b with Some Lt => true | _ => false end.

Definition num_ge (a b : number) : bool :=
  match num_compare a b with Some Gt | Some Eq => true | _ => false end.

Definition num_le (a b : number) : bool :=
  match num_compare a b with Some Lt | Some Eq => true | _ => false end.

(** [Number.MAX_SAFE_INTEGER], 2^53 - 1. *)
Definition MAX_SAFE_INTEGER : Z := 9007199254740991.

(** [Number.isSafeInteger]: on these numbers, and on products of them
    that are safe integers again, the exact arithmetic of this file is the
    arithmetic of JavaScript. *)
Definition isSafeInteger (n : number) : bool :=
  match n with
  | Fin q => (Qden q =? 1)%positive && (Z.abs (Qnum q) <=? MAX_SAFE_INTEGER)%Z
  | _ => false
  end.

(** The numbers that are in JavaScript what they are here: the safe
    integers and the values that are not finite. *)
Definition held_exactly (n : number) : bool :=
  match n with
  | Fin _ => isSafeInteger n
  | _ => true
  end.

(** ** Decimal digits *)

Definition is_digit (c : N) : bool := ((48 <=? c) && (c <=? 57))%N.

Definition digit_value (c : N) : N := (c - 48)%N.

(** Value of a digit sequence in a radix, most significant digit first. *)
Definition digits_value (radix : N) (ds : list N) : N :=
  fold_left (fun acc d => (acc * radix + d)%N) ds 0%N.

Definition decimal_value (ds : list N) : N :=
  digits_value 10 (digit_value <$> ds).

(** The longest prefix of decimal digits, and what follows it. *)
Fixpoint span_digits (s : list N) : list N * list N :=
  match s with
  | c :: r =>
      if is_digit c
      then let '(ds, rest) := span_digits r in (c :: ds, rest)
      else ([], s)
  | [] => ([], [])
  end.

(** Decimal digits of a natural number, most significant first.  The fuel
    bounds the number of digits; the binary size of [n] always suffices. *)
Fixpoint decimal_digits_fuel (fuel : nat) (n : N) : list N :=
  match fuel with
  | O => [(48 + n)%N]
  | S fuel' =>
      if (n <? 10)%N then [(48 + n)%N]
      else decimal_digits_fuel fuel' (n / 10)%N ++ [(48 + n mod 10)%N]
  end.

Definition decimal_digits (n : N) : list N :=
  decimal_digits_fuel (N.to_nat (N.size n)) n.

(** [Number.prototype.toString] on an integer (below 10^21, where the
    result is the plain decimal expansion). *)
Definition Z_toString (z : Z) : list N :=
  match z with
  | Zneg p => 45%N :: decimal_digits (Npos p)
  | _ => decimal_digits (Z.to_N z)
  end.

(** ** String to number (ECMAScript StringToNumber) *)

(** StrWhiteSpaceChar: WhiteSpace and LineTerminator code units. *)
Definition StrWhiteSpaceChar (c : N) : bool :=
  bool_decide (c ∈ [9; 10; 11; 12; 13; 32; 160; 5760; 8232; 8233; 8239;
                    8287; 12288; 65279]%N)
  || ((8192 <=? c) && (c <=? 8202))%N.

Fixpoint trim_start (s : list N) : list N :=
  match s with
  | c :: r => if StrWhiteSpaceChar c then trim_start r else s
  | [] => []
  end.

Fixpoint trim_end (s : list N) : list N :=
  match s with
  | c :: r =>
      match trim_end r with
      | [] => if StrWhiteSpaceChar c then [] else [c]
      | r' => c :: r'
      end
  | [] => []
  end.

Definition trim (s : list N) : list N := trim_end (trim_start s).

(** Digits of a non-decimal integer literal; [None] on a foreign character. *)
Definition radix_digit (radix c : N) : option N :=
  let v :=
    if is_digit c then Some (c - 48)%N
    else if ((97 <=? c) && (c <=? 102))%N then Some (c - 87)%N
    else if ((65 <=? c) && (c <=? 70))%N then Some (c - 55)%N
    else None in
  match v with
  | Some d => if (d <? radix)%N then Some d else None
  | None => None
  end.

Definition radix_literal (radix : N) (ds : list N) : number :=
  match ds with
  | [] => NaN
  | _ =>
      match mapM (radix_digit radix) ds with
      | Some vs => Int (Z.of_N (digits_value radix vs))
      | None => NaN
      end
  end.

(** The value [mant * 10^(e - length frac)] of a decimal literal with
    integer digits [ip], fraction digits [fp] and exponent [e]. *)
Definition decimal_literal_value (ip fp : list N) (e : Z) : Q :=
  Qmult (inject_Z (Z.of_N (decimal_value (ip ++ fp))))
        (Qpower (10 # 1) (e - Z.of_nat (length fp))).

(** ExponentPart, read after the fraction: [Some e] when [s] is empty
    ([e = 0]) or is [e]/[E], an optional sign and at least one digit,
    up to the end of the string. *)
Definition exponent_part (s : list N) : option Z :=
  match s with
  | [] => Some 0%Z
  | c :: r =>
      if bool_decide (c = 101%N ∨ c = 69%N) then
        let '(neg, r') :=
          match r with
          | 43%N :: t => (false, t)
          | 45%N :: t => (true, t)
          | _ => (false, r)
          end in
        match span_digits r' with
        | (d :: ds, []) =>
            let e := Z.of_N (decimal_value (d :: ds)) in
            Some (if neg then (- e)%Z else e)
        | _ => None
        end
      else None
  end.

(** StrUnsignedDecimalLiteral without [Infinity]: digits with an optional
    fraction and exponent; at least one digit before or after the dot. *)
Definition unsigned_decimal_literal (s : list N) : option Q :=
  let '(ip, r1) := span_digits s in
  let '(fp, r2) :=
    match r1 with
    | 46%N :: r => span_digits r
    | _ => ([], r1)
    end in
  match ip ++ fp with
  | [] => None
  | _ =>
      match exponent_part r2 with
      | Some e => Some (decimal_literal_value ip fp e)
      | None => None
      end
  end.

Definition StringToNumber (s : list N) : number :=
  match trim s with
  | [] => Int 0
  | 48%N :: 120%N :: ds | 48%N :: 88%N :: ds => radix_literal 16 ds
  | 48%N :: 111%N :: ds | 48%N :: 79%N :: ds => radix_literal 8 ds
  | 48%N :: 98%N :: ds | 48%N :: 66%N :: ds => radix_literal 2 ds
  | t =>
      let '(neg, u) :=
        match t with
        | 43%N :: r => (false, r)
        | 45%N :: r => (true, r)
        | _ => (false, t)
        end in
      if bool_decide (u = js "Infinity") then (if neg then NInf else PInf)
      else
        match unsigned_decimal_literal u with
        | Some q => finite (if neg then Qopp q else q)
        | None => NaN
        end
  end.

(** ** Values

    The values the script handles are the JSON values and [undefined];
    none of them is a function.  An object is the finite map of its own
    enumerable properties.  Its prototype is not represented: as long as
    it is the initial [Object.prototype], none of the property names the
    script reads ([origin], [quantity], [frequency], [newOnly],
    [namespace], [direction], [dangerousTags], [defaultPrefs]) exists on
    it, and a read of a property the object does not own is
    [undefined]. *)

Inductive jsval :=
  | JUndefined
  | JNull
  | JBool (b : bool)
  | JNum (n : number)
  | JStr (s : list N)
  | JArr (l : list jsval)
  | JObj (o : gmap (list N) jsval).

Inductive error :=
  | SyntaxError
  | TypeError.

Inductive completion (A : Type) :=
  | Normal (a : A)
  | Throw (e : error).

Arguments Normal {A} a.
Arguments Throw {A} e.

(** Property read [o.k]: [undefined] when [o] has no own property [k]. *)
Definition get_prop (o : gmap (list N) jsval) (k : list N) : jsval :=
  default JUndefined (o !! k).

(** ToBoolean. *)
Definition truthy (v : jsval) : bool :=
  match v with
  | JUndefined | JNull => false
  | JBool b => b
  | JNum NaN => false
  | JNum (Fin q) => negb (Qnum q =? 0)%Z
  | JNum _ => true
  | JStr s => match s with [] => false | _ => true end
  | JArr _ | JObj _ => true
  end.

(** Strict equality [v === 'literal'] against a string. *)
Definition strict_eq_string (v : jsval) (s : list N) : bool :=
  match v with
  | JStr t => bool_decide (t = s)
  | _ => false
  end.

(** Whether ToString throws on a value.  An object made of JSON values has
    no callable own property: when it has an own [toString], neither that
    nor the inherited [valueOf] yields a primitive and the conversion
    throws a TypeError.  An array is joined, converting every element that
    is not [undefined] or [null]. *)
Fixpoint ToString_throws (v : jsval) : bool :=
  match v with
  | JObj o => bool_decide (is_Some (o !! js "toString"))
  | JArr l => existsb ToString_throws l
  | _ => false
  end.

(** ToNumber.  Objects and arrays go through ToPrimitive and then
    StringToNumber: an object becomes ["[object Object]"], which is not
    numeric; an array becomes the comma-separated join of its elements, so
    an empty array is 0, an array of one element converts as the string of
    that element (for a number, the number itself), and a longer array
    contains a comma and is not numeric. *)
Fixpoint ToNumber (v : jsval) : completion number :=
  match v with
  | JUndefined => Normal NaN
  | JNull => Normal (Int 0)
  | JBool b => Normal (Int (if b then 1 else 0))
  | JNum n => Normal n
  | JStr s => Normal (StringToNumber s)
  | JObj o =>
      if ToString_throws v then Throw TypeError else Normal NaN
  | JArr l =>
      match l with
      | [] => Normal (Int 0)
      | [x] =>
          match x with
          | JUndefined | JNull => Normal (Int 0)
          | JBool _ => Normal NaN
          | _ => ToNumber x
          end
      | _ => if existsb ToString_throws l then Throw TypeError else Normal NaN
      end
  end.

(** The multiplicative operator [a * b].  The product is exact: it is the
    product of JavaScript when the factors and the product are safe
    integers ([32.3 * 1000] is 32300 here and 32299.999999999996 in
    JavaScript). *)
Definition js_mul (a b : jsval) : completion number :=
  match ToNumber a with
  | Normal x =>
      match ToNumber b with
      | Normal y => Normal (num_mul x y)
      | Throw e => Throw e
      end
  | Throw e => Throw e
  end.

(** The array-index keys ["0"], ["1"], ... of a sequence. *)
Definition index_keys {A} (l : list A) : gmap (list N) A :=
  list_to_map (imap (fun i x => (Z_toString (Z.of_nat i), x)) l).

(** Own enumerable string-keyed properties of a source of [Object.assign]:
    [undefined] and [null] are skipped, booleans and numbers have none, a
    string has its code units, an array its elements. *)
Definition own_enumerable (source : jsval) : gmap (list N) jsval :=
  match source with
  | JObj o => o
  | JArr l => index_keys l
  | JStr s => index_keys ((fun c => JStr [c]) <$> s)
  | _ => ∅
  end.

(** [Object.assign(target, source)]: every own enumerable property of the
    source is set on the target, overwriting.  Setting [__proto__] (an own
    property only of a parsed JSON object) goes to the accessor of
    [Object.prototype] and creates no own property on the target.  The
    result is the map of the own properties of the target; that the
    accessor replaces the prototype of the target when the value is an
    object is told by [sets_prototype]. *)
Definition Object_assign (target : gmap (list N) jsval) (source : jsval)
  : gmap (list N) jsval :=
  delete (js "__proto__") (own_enumerable source) ∪ target.

(** Whether [Object.assign(target, source)] replaces the prototype of the
    target by an object: the source has an own property [__proto__] that
    holds an object.  (Other values are ignored by the accessor, except
    [null], which leaves the target without inherited properties.) *)
Definition sets_prototype (source : jsval) : bool :=
  match own_enumerable source !! js "__proto__" with
  | Some (JObj _) | Some (JArr _) => true
  | _ => false
  end.

(** ** JSON.parse *)

Inductive parse_result (A : Type) :=
  | Parsed (a : A) (rest : list N)
  | Malformed
  | OutOfFuel.

Arguments Parsed {A} a rest.
Arguments Malformed {A}.
Arguments OutOfFuel {A}.

(** JSON white space: tab, line feed, carriage return, space. *)
Definition json_ws (c : N) : bool :=
  bool_decide (c ∈ [9; 10; 13; 32]%N).

Fixpoint skip_ws (s : list N) : list N :=
  match s with
  | c :: r => if json_ws c then skip_ws r else s
  | [] => []
  end.

Definition hex4 (a b c d : N) : option N :=
  match radix_digit 16 a, radix_digit 16 b, radix_digit 16 c,
        radix_digit 16 d with
  | Some x, Some y, Some z, Some w =>
      Some (((x * 16 + y) * 16 + z) * 16 + w)%N
  | _, _, _, _ => None
  end.

Definition prepend (c : N) (r : option (list N * list N))
  : option (list N * list N) :=
  match r with
  | Some (cs, rest) => Some (c :: cs, rest)
  | None => None
  end.

(** [literal pre s]: what follows [pre] in [s], when [s] starts with it. *)
Fixpoint literal (pre s : list N) : option (list N) :=
  match pre, s with
  | [], _ => Some s
  | p :: pre', c :: s' => if (p =? c)%N then literal pre' s' else None
  | _ :: _, [] => None
  end.

(** The character an escape [\c] stands for; [\u] is read apart. *)
Definition escape (c : N) : option N :=
  if (c =? 34)%N then Some 34%N
  else if (c =? 92)%N then Some 92%N
  else if (c =? 47)%N then Some 47%N
  else if (c =? 98)%N then Some 8%N
  else if (c =? 102)%N then Some 12%N
  else if (c =? 110)%N then Some 10%N
  else if (c =? 114)%N then Some 13%N
  else if (c =? 116)%N then Some 9%N
  else None.

(** The characters of a string literal after its opening quote, up to the
    closing quote, and the text that follows. *)
Fixpoint parse_string_chars (s : list N) : option (list N * list N) :=
  match s with
  | [] => None
  | c :: r =>
      if (c =? 34)%N then Some ([], r)
      else if (c =? 92)%N then
        match r with
        | [] => None
        | e :: t =>
            if (e =? 117)%N then
              match t with
              | a :: b :: c :: d :: t' =>
                  match hex4 a b c d with
                  | Some u => prepend u (parse_string_chars t')
                  | None => None
                  end
              | _ => None
              end
            else
              match escape e with
              | Some u => prepend u (parse_string_chars t)
              | None => None
              end
        end
      else if (c <? 32)%N then None
      else prepend c (parse_string_chars r)
  end.

(** The integer part of a JSON number: [0], or digits that start with a
    nonzero digit. *)
Definition json_int (s : list N) : option (list N * list N) :=
  match s with
  | c :: r =>
      if (c =? 48)%N then Some ([48%N], r)
      else if is_digit c then Some (span_digits s)
      else None
  | [] => None
  end.

(** The fraction: a dot and at least one digit, or nothing. *)
Definition json_frac (s : list N) : option (list N * list N) :=
  match s with
  | c :: r =>
      if (c =? 46)%N then
        match span_digits r with
        | ([], _) => None
        | (fp, rest) => Some (fp, rest)
        end
      else Some ([], s)
  | [] => Some ([], s)
  end.

(** The exponent: [e] or [E], an optional sign and at least one digit, or
    nothing. *)
Definition json_exp (s : list N) : option (Z * list N) :=
  match s with
  | c :: r =>
      if (c =? 101)%N || (c =? 69)%N then
        let '(eneg, r') :=
          match r with
          | sg :: t =>
              if (sg =? 43)%N then (false, t)
              else if (sg =? 45)%N then (true, t)
              else (false, r)
          | [] => (false, r)
          end in
        match span_digits r' with
        | ([], _) => None
        | (ds, rest) =>
            let e := Z.of_N (decimal_value ds) in
            Some (if eneg then (- e)%Z else e, rest)
        end
      else Some (0%Z, s)
  | [] => Some (0%Z, s)
  end.

(** A JSON number: [-]? int frac? exp?. *)
Definition parse_number (s : list N) : parse_result jsval :=
  let '(neg, s1) :=
    match s with
    | c :: r => if (c =? 45)%N then (true, r) else (false, s)
    | [] => (false, s)
    end in
  match json_int s1 with
  | None => Malformed
  | Some (ip, r1) =>
      match json_frac r1 with
      | None => Malformed
      | Some (fp, r2) =>
          match json_exp r2 with
          | None => Malformed
          | Some (e, r3) =>
              let q := decimal_literal_value ip fp e in
              Parsed (JNum (finite (if neg then Qopp q else q))) r3
          end
      end
  end.

(** A value that is not an object or an array. *)
Definition parse_scalar (s : list N) : parse_result jsval :=
  match s with
  | c :: r =>
      if (c =? 34)%N then
        match parse_string_chars r with
        | Some (cs, rest) => Parsed (JStr cs) rest
        | None => Malformed
        end
      else
        match literal (js "true") s with
        | Some rest => Parsed (JBool true) rest
        | None =>
            match literal (js "false") s with
            | Some rest => Parsed (JBool false) rest
            | None =>
                match literal (js "null") s with
                | Some rest => Parsed JNull rest
                | None => parse_number s
                end
            end
        end
  | [] => Malformed
  end.

(** Recursive descent on the grammar of ECMA-404.  A later member with
    the same key replaces an earlier one. *)
Fixpoint parse_value (fuel : nat) (s : list N) : parse_result jsval :=
  match fuel with
  | O => OutOfFuel
  | S fuel' =>
      match skip_ws s with
      | c :: r =>
          if (c =? 123)%N then
            match literal [125%N] (skip_ws r) with
            | Some rest => Parsed (JObj ∅) rest
            | None => parse_members fuel' (skip_ws r) ∅
            end
          else if (c =? 91)%N then
            match literal [93%N] (skip_ws r) with
            | Some rest => Parsed (JArr []) rest
            | None => parse_elements fuel' (skip_ws r) []
            end
          else parse_scalar (c :: r)
      | [] => Malformed
      end
  end
with parse_elements (fuel : nat) (s : list N) (acc : list jsval)
  : parse_result jsval :=
  match fuel with
  | O => OutOfFuel
  | S fuel' =>
      match parse_value fuel' s with
      | Parsed v r =>
          match skip_ws r with
          | c :: r' =>
              if (c =? 44)%N then parse_elements fuel' r' (acc ++ [v])
              else if (c =? 93)%N then Parsed (JArr (acc ++ [v])) r'
              else Malformed
          | [] => Malformed
          end
      | Malformed => Malformed
      | OutOfFuel => OutOfFuel
      end
  end
with parse_members (fuel : nat) (s : list N) (acc : gmap (list N) jsval)
  : parse_result jsval :=
  match fuel with
  | O => OutOfFuel
  | S fuel' =>
      match literal [34%N] (skip_ws s) with
      | Some r =>
          match parse_string_chars r with
          | Some (k, r1) =>
              match literal [58%N] (skip_ws r1) with
              | Some r2 =>
                  match parse_value fuel' r2 with
                  | Parsed v r3 =>
                      match skip_ws r3 with
                      | c :: r4 =>
                          if (c =? 44)%N
                          then parse_members fuel' r4 (<[k:=v]> acc)
                          else if (c =? 125)%N
                          then Parsed (JObj (<[k:=v]> acc)) r4
                          else Malformed
                      | [] => Malformed
                      end
                  | Malformed => Malformed
                  | OutOfFuel => OutOfFuel
                  end
              | None => Malformed
              end
          | None => Malformed
          end
      | None => Malformed
      end
  end.

(** Fuel for a text: twice its length and one, which the parser never
    exhausts ([parse_value_fuel] below). *)
Definition json_fuel (s : list N) : nat := 2 * length s + 1.

(** [JSON.parse(text)]: the value, or a SyntaxError when the text is not
    exactly one JSON value surrounded by white space. *)
Definition JSON_parse (s : list N) : completion jsval :=
  match parse_value (json_fuel s) s with
  | Parsed v rest =>
      match skip_ws rest with
      | [] => Normal v
      | _ => Throw SyntaxError
      end
  | _ => Throw SyntaxError
  end.

(** The effect of [JSON.parse(JSON.stringify(v))]: a property whose value
    is [undefined] is dropped, [undefined] in an array and a number that
    is not finite become [null]. *)
Fixpoint json_roundtrip (v : jsval) : jsval :=
  match v with
  | JUndefined => JNull
  | JNum NaN | JNum PInf | JNum NInf => JNull
  | JArr l => JArr (json_roundtrip <$> l)
  | JObj o =>
      JObj (omap (fun x =>
                    match x with
                    | JUndefined => None
                    | _ => Some (json_roundtrip x)
                    end) o)
  | _ => v
  end.

(** ** The site and the page

    What the script reads from its surroundings and never changes. *)

Record Site := {
  (** the module [rcp-config.json] *)
  rcp_config : jsval;
  (** [mw.config.get('wgContentNamespaces')] *)
  wgContentNamespaces : list Z;
  (** [mw.config.get('wgNamespaceIds')]: names and aliases with their
      identifier, in property order *)
  wgNamespaceIds : list (list N * Z);
  (** [mw.config.get('skin')] *)
  skin : list N;
  (** [mw.msg] *)
  msg : list N -> list N;
  (** [moment(timestamp).fromNow()] at a value of the clock *)
  fromNow : list N -> Z -> list N
}.

(** One change of the API response ([rcprop]/[wlprop]
    title|timestamp|ids|sizes|tags, formatversion 2). *)
Record change := {
  title : list N;
  revid : Z;
  timestamp : list N;
  oldlen : Z;
  newlen : Z;
  tags : list (list N);
  type : list N
}.

(** The link of a change in the portlet. *)
Record change_item := {
  item_title : list N;
  (** target: the diff of [item_diff] against [oldid=prev] *)
  item_diff : Z;
  item_classes : list (list N);
  (** attribute [data-rcp-diffsize] *)
  item_diffsize : jsval;
  (** attributes [data-rcp-indicator-new], [data-rcp-indicator-highlight] *)
  item_indicator_new : option (list N);
  item_indicator_highlight : option (list N);
  (** the relative time, shown as text or, in Minerva, as tooltip *)
  item_fromNow : list N;
  item_minerva : bool
}.

Inductive portlet_item :=
  (** the link [n-userjs-rcp-emptylist], replaced by a span with its text *)
  | EmptyNotice (text : list N)
  | ChangeLink (it : change_item)
  (** a link added by [mw.util.addPortletLink] and not yet decorated *)
  | BareLink (title : list N) (diff : Z)
  (** a link whose text has been replaced by the title span, with its
      attribute [data-rcp-diffsize] and, once set, the attribute
      [data-rcp-indicator-new]; classes and time are not yet added *)
  | TitledLink (title : list N) (diff : Z) (diffsize : jsval)
               (indicator_new : option (list N)).

(** The value of the user option [userjs-rcp]: a text found there, or the
    text [JSON.stringify(o)] written by [setPreferences]. *)
Inductive option_text :=
  | Raw (s : list N)
  | Stringified (o : gmap (list N) jsval).

(** Calls to the outside, in the order they are made. *)
Inductive call :=
  | ClearInterval (id : option nat)
  | SetInterval (id : nat) (delay : number)
  | ApiGet (request : gmap (list N) jsval)
  | ApiPostOptions (optionvalue : option_text)
  | ConsoleLog (message : list N) (errorObj : jsval)
  | Notify (message : list N)
  | DialogClose.

Record page := {
  (** [mw.user.options]: the option [userjs-rcp], if set *)
  userjs_rcp : option option_text;
  (** [document.hidden] *)
  hidden : bool;
  (** [Date.now()], in milliseconds *)
  now : Z;
  (** the script's variables *)
  intervalId : option nat;
  lastCheckedTime : Z;
  (** the repeating timers that are armed, with their delay *)
  timers : gmap nat number;
  (** the last timer handle the browser has given out *)
  handles : nat;
  (** the children of [#p-unpatrolled ul] *)
  portlet : list portlet_item;
  (** class [oo-ui-pendingElement-pending] on that list *)
  pending : bool;
  calls : list call
}.

(** ** State and exceptions *)

Definition M (A : Type) : Type := page -> completion A * page.

Definition ret {A} (a : A) : M A := fun p => (Normal a, p).

Definition bind {A B} (m : M A) (f : A -> M B) : M B := fun p =>
  match m p with
  | (Normal a, p') => f a p'
  | (Throw e, p') => (Throw e, p')
  end.

Notation "'let*' x ':=' m 'in' k" := (bind m (fun x => k))
  (at level 10, x name, m at level 100, k at level 200).

Notation "m >> k" := (bind m (fun _ => k))
  (at level 100, k at level 200, right associativity).

Definition throw {A} (e : error) : M A := fun p => (Throw e, p).

(** [m], and [h] when [m] throws. *)
Definition try_catch {A} (m : M A) (h : error -> M A) : M A := fun p =>
  match m p with
  | (Normal a, p') => (Normal a, p')
  | (Throw e, p') => h e p'
  end.

Definition gets {A} (f : page -> A) : M A := fun p => (Normal (f p), p).

Definition modify (f : page -> page) : M unit := fun p => (Normal tt, f p).

Definition lift {A} (c : completion A) : M A := fun p => (c, p).

(** The page an operation leaves, whether it returns or throws. *)
Definition exec {A} (m : M A) (p : page) : page := (m p).2.

Definition record_call (c : call) (p : page) : page :=
  {| userjs_rcp := userjs_rcp p; hidden := hidden p; now := now p;
     intervalId := intervalId p; lastCheckedTime := lastCheckedTime p;
     timers := timers p; handles := handles p; portlet := portlet p;
     pending := pending p; calls := calls p ++ [c] |}.

Definition set_userjs_rcp (t : option_text) (p : page) : page :=
  {| userjs_rcp := Some t; hidden := hidden p; now := now p;
     intervalId := intervalId p; lastCheckedTime := lastCheckedTime p;
     timers := timers p; handles := handles p; portlet := portlet p;
     pending := pending p; calls := calls p |}.

Definition set_intervalId (id : nat) (p : page) : page :=
  {| userjs_rcp := userjs_rcp p; hidden := hidden p; now := now p;
     intervalId := Some id; lastCheckedTime := lastCheckedTime p;
     timers := timers p; handles := handles p; portlet := portlet p;
     pending := pending p; calls := calls p |}.

Definition set_lastCheckedTime (t : Z) (p : page) : page :=
  {| userjs_rcp := userjs_rcp p; hidden := hidden p; now := now p;
     intervalId := intervalId p; lastCheckedTime := t;
     timers := timers p; handles := handles p; portlet := portlet p;
     pending := pending p; calls := calls p |}.

Definition set_timers (t : gmap nat number) (h : nat) (p : page) : page :=
  {| userjs_rcp := userjs_rcp p; hidden := hidden p; now := now p;
     intervalId := intervalId p; lastCheckedTime := lastCheckedTime p;
     timers := t; handles := h; portlet := portlet p;
     pending := pending p; calls := calls p |}.

Definition set_portlet (l : list portlet_item) (p : page) : page :=
  {| userjs_rcp := userjs_rcp p; hidden := hidden p; now := now p;
     intervalId := intervalId p; lastCheckedTime := lastCheckedTime p;
     timers := timers p; handles := handles p; portlet := l;
     pending := pending p; calls := calls p |}.

Definition set_pending (b : bool) (p : page) : page :=
  {| userjs_rcp := userjs_rcp p; hidden := hidden p; now := now p;
     intervalId := intervalId p; lastCheckedTime := lastCheckedTime p;
     timers := timers p; handles := handles p; portlet := portlet p;
     pending := b; calls := calls p |}.

(** The surroundings move: the clock advances, the tab is hidden or shown. *)
Definition set_surroundings (t : Z) (h : bool) (p : page) : page :=
  {| userjs_rcp := userjs_rcp p; hidden := h; now := t;
     intervalId := intervalId p; lastCheckedTime := lastCheckedTime p;
     timers := timers p; handles := handles p; portlet := portlet p;
     pending := pending p; calls := calls p |}.

(** [clearInterval(id)]: disarms the timer with that handle, if any. *)
Definition clearInterval (id : option nat) : M unit :=
  modify (fun p =>
    record_call (ClearInterval id)
      (set_timers (match id with
                   | Some i => delete i (timers p)
                   | None => timers p
                   end) (handles p) p)).

(** [setInterval(populateList, delay)]: arms a repeating timer under a
    handle not given out before. *)
Definition setInterval (delay : number) : M nat := fun p =>
  let id := S (handles p) in
  (Normal id,
   record_call (SetInterval id delay)
     (set_timers (<[id:=delay]> (timers p)) id p)).

(** [mw.util.addPortletLink('p-unpatrolled', ...)]: appends to the list. *)
Definition addPortletLink (it : portlet_item) : M unit :=
  modify (fun p => set_portlet (portlet p ++ [it]) p).

(** Replaces the link added last by the link as decorated so far. *)
Definition decorate_last (it : portlet_item) : M unit :=
  modify (fun p => set_portlet (removelast (portlet p) ++ [it]) p).

(** ** The script *)

(** An object literal: later properties replace earlier ones. *)
Definition object_literal (l : list (list N * jsval)) : gmap (list N) jsval :=
  foldl (fun o kv => <[kv.1:=kv.2]> o) ∅ l.

Definition defaultPrefs : gmap (list N) jsval :=
  object_literal
    [ (js "origin", JStr (js "recentchanges"));
      (js "quantity", JNum (Int 10));
      (js "frequency", JNum (Int 60));
      (js "newOnly", JBool false);
      (js "namespace", JStr (js "all"));
      (js "direction", JStr (js "older")) ].

Definition defaultConf : gmap (list N) jsval :=
  object_literal
    [ (js "dangerousTags",
       JArr [ JStr (js "mw-blank");
              JStr (js "mw-changed-redirect-target");
              JStr (js "mw-manual-revert");
              JStr (js "mw-replace");
              JStr (js "mw-undo") ]);
      (js "defaultPrefs", JObj defaultPrefs) ].

(** [getConf()]: the configuration for this wiki. *)
Definition getConf (site : Site) : gmap (list N) jsval :=
  let conf :=
    if truthy (rcp_config site) then rcp_config site else JObj ∅ in
  Object_assign defaultConf conf.

(** [JSON.parse(mw.user.options.get('userjs-rcp'))].  An option that is
    not set reads as [null], which [JSON.parse] converts to the text
    [null]; the text written by [setPreferences] parses back to the
    object it was made from. *)
Definition parse_userjs_rcp (stored : option option_text) : completion jsval :=
  match stored with
  | None => JSON_parse (js "null")
  | Some (Raw s) => JSON_parse s
  | Some (Stringified o) => Normal (json_roundtrip (JObj o))
  end.

(** [getPreferences(newPrefs = {})]: the user's preferences. *)
Definition getPreferences (site : Site) (newPrefs : jsval)
  : M (gmap (list N) jsval) :=
  let newPrefs :=
    match newPrefs with JUndefined => JObj ∅ | _ => newPrefs end in
  let prefs := ∅ in
  let* stored := gets userjs_rcp in
  let* parsed := lift (parse_userjs_rcp stored) in
  let userPrefs := if truthy parsed then parsed else JObj ∅ in
  let prefs :=
    Object_assign prefs (get_prop (getConf site) (js "defaultPrefs")) in
  let prefs := Object_assign prefs userPrefs in
  let prefs := Object_assign prefs newPrefs in
  ret prefs.

(** [setPreferences(options)]: writes the option locally, then posts it. *)
Definition setPreferences (options : gmap (list N) jsval) : M unit :=
  modify (set_userjs_rcp (Stringified options)) >>
  modify (record_call (ApiPostOptions (Stringified options))).

Record ListType := {
  list_name : list N;
  prefix : list N
}.

(** [getApiListType(origin)]: the list type we want and its API prefix. *)
Definition getApiListType (origin : jsval) : ListType :=
  if strict_eq_string origin (js "watchlist") then
    {| list_name := js "watchlist"; prefix := js "wl" |}
  else
    {| list_name := js "recentchanges"; prefix := js "rc" |}.

(** [[...new Set(l)]]: the distinct values in order of first occurrence. *)
Definition Set_spread (l : list Z) : list Z :=
  fold_left
    (fun seen x => if bool_decide (x ∈ seen) then seen else seen ++ [x]) l [].

(** [Object.values] of an object given with its properties in order. *)
Definition Object_values (o : list (list N * Z)) : list Z := o.*2.

Definition namespace_array (l : list Z) : jsval :=
  JArr ((fun ns => JNum (Int ns)) <$> l).

(** The request [getUnpatrolled] builds. *)
Definition unpatrolled_request (site : Site) (prefs : gmap (list N) jsval)
  : gmap (list N) jsval :=
  let listType := getApiListType (get_prop prefs (js "origin")) in
  let editType :=
    if truthy (get_prop prefs (js "newOnly")) then JStr (js "new")
    else JArr [JStr (js "edit"); JStr (js "new")] in
  let request :=
    object_literal
      [ (js "action", JStr (js "query"));
        (js "list", JStr (list_name listType));
        (js "format", JStr (js "json"));
        (js "formatversion", JNum (Int 2));
        (prefix listType ++ js "show", JStr (js "!patrolled"));
        (prefix listType ++ js "type", editType);
        (prefix listType ++ js "prop",
         JArr [ JStr (js "title"); JStr (js "timestamp"); JStr (js "ids");
                JStr (js "sizes"); JStr (js "tags") ]);
        (prefix listType ++ js "dir", get_prop prefs (js "direction"));
        (prefix listType ++ js "limit", get_prop prefs (js "quantity"));
        (js "maxage", get_prop prefs (js "frequency"));
        (js "smaxage", get_prop prefs (js "frequency")) ] in
  let contentNamespaces := wgContentNamespaces site in
  if strict_eq_string (get_prop prefs (js "namespace")) (js "content") then
    <[prefix listType ++ js "namespace" := namespace_array contentNamespaces]>
      request
  else if strict_eq_string (get_prop prefs (js "namespace")) (js "noncontent")
  then
    let allNamespaces := Object_values (wgNamespaceIds site) in
    let allNamespaces := Set_spread allNamespaces in
    let nonContentNamespaces :=
      filter (fun ns => ns ∉ contentNamespaces) allNamespaces in
    <[prefix listType ++ js "namespace" :=
        namespace_array nonContentNamespaces]> request
  else request.

(** [getUnpatrolled(prefs)]: notes the time and sends the request. *)
Definition getUnpatrolled (site : Site) (prefs : gmap (list N) jsval)
  : M unit :=
  let request := unpatrolled_request site prefs in
  let* t := gets now in
  modify (set_lastCheckedTime t) >>
  modify (record_call (ApiGet request)).

(** [Math.abs(v)]. *)
Definition Math_abs (v : jsval) : completion number :=
  match ToNumber v with
  | Normal n => Normal (num_abs n)
  | Throw e => Throw e
  end.

(** Lines 178 to 191 of [createPortletEntry]: the classes for the size of
    the change, and the value left in [sizeDiff]. *)
Definition sizeDiff_classes (data : change) : list (list N) * jsval :=
  let classesToAdd := [js "userjs-rcp-item"] in
  let sizeDiff := (newlen data - oldlen data)%Z in
  let '(classesToAdd, sizeDiff) :=
    if (sizeDiff >? 0)%Z then
      (classesToAdd ++ [js "userjs-rcp-diff-positive"],
       JStr (43%N :: Z_toString sizeDiff))
    else if (sizeDiff <? 0)%Z then
      (classesToAdd ++ [js "userjs-rcp-diff-negative"],
       JStr (8722%N :: Z_toString (Z.abs sizeDiff)))
    else (classesToAdd, JNum (Int sizeDiff)) in
  let classesToAdd :=
    match Math_abs sizeDiff with
    | Normal a =>
        if num_ge a (Int 500) then classesToAdd ++ [js "userjs-rcp-diff-large"]
        else classesToAdd
    | Throw _ => classesToAdd
    end in
  (classesToAdd, sizeDiff).

(** [tags.includes(tag)] for an array of strings. *)
Definition includes (tags : list (list N)) (tag : jsval) : bool :=
  match tag with
  | JStr s => bool_decide (s ∈ tags)
  | _ => false
  end.

(** [getConf().dangerousTags.filter( tag => data.tags.includes( tag ) ).length],
    as a condition. *)
Definition has_dangerous_tag (site : Site) (data : change) : completion bool :=
  match get_prop (getConf site) (js "dangerousTags") with
  | JArr l =>
      Normal (negb (length (List.filter (includes (tags data)) l) =? 0)%nat)
  | _ => Throw TypeError
  end.

(** [createPortletEntry(data)]: a single portlet link for a change.  The
    link is added bare; its text is replaced by the title span, with the
    size label; the indicator of a new page is set on the span; then the
    tags are tested, which throws when [dangerousTags] is no array; at
    last the classes and the time are added. *)
Definition createPortletEntry (site : Site) (data : change) : M unit :=
  addPortletLink (BareLink (title data) (revid data)) >>
  let '(classesToAdd, sizeDiff) := sizeDiff_classes data in
  let* t := gets now in
  decorate_last (TitledLink (title data) (revid data) sizeDiff None) >>
  let is_new := bool_decide (type data = js "new") in
  let classesToAdd :=
    if is_new then classesToAdd ++ [js "userjs-rcp-item-new"]
    else classesToAdd in
  (if is_new
   then decorate_last
          (TitledLink (title data) (revid data) sizeDiff
             (Some (msg site (js "userjs-rcp-indicator-new"))))
   else ret tt) >>
  let* dangerous := lift (has_dangerous_tag site data) in
  let classesToAdd :=
    if dangerous then classesToAdd ++ [js "userjs-rcp-item-highlight"]
    else classesToAdd in
  decorate_last
    (ChangeLink
       {| item_title := title data;
          item_diff := revid data;
          item_classes := classesToAdd;
          item_diffsize := sizeDiff;
          item_indicator_new :=
            if is_new then Some (msg site (js "userjs-rcp-indicator-new"))
            else None;
          item_indicator_highlight :=
            if dangerous
            then Some (msg site (js "userjs-rcp-indicator-highlight"))
            else None;
          item_fromNow := fromNow site (timestamp data) t;
          item_minerva := bool_decide (skin site = js "minerva") |}).

Fixpoint for_each {A} (f : A -> M unit) (l : list A) : M unit :=
  match l with
  | [] => ret tt
  | x :: r => f x >> for_each f r
  end.

(** The [done] callback of [populateList]: [prefs] and [initial] are those
    of the call that sent the request, [data] is [data.query]. *)
Definition populateList_done (site : Site) (prefs : gmap (list N) jsval)
    (initial : bool) (data : gmap (list N) (list change)) : M unit :=
  (if initial then ret tt
   else modify (set_portlet []) >> modify (set_pending false)) >>
  let changeListType :=
    list_name (getApiListType (get_prop prefs (js "origin"))) in
  match data !! changeListType with
  | None => throw TypeError
  | Some changeList =>
      if (length changeList =? 0)%nat then
        addPortletLink (EmptyNotice (msg site (js "userjs-rcp-portlet-empty")))
      else for_each (createPortletEntry site) changeList
  end.

(** The [fail] callback of [populateList]. *)
Definition populateList_fail (error : list N) (errorObj : jsval) : M unit :=
  modify (record_call
            (ConsoleLog (js "Error from Gadget-rcp.js: " ++ error) errorObj)).

(** [populateList(initial = false)], up to sending the request. *)
Definition populateList (site : Site) (initial : bool) : M unit :=
  let* h := gets hidden in
  if h then ret tt
  else
    let* prefs := getPreferences site JUndefined in
    (if initial then ret tt else modify (set_pending true)) >>
    getUnpatrolled site prefs.

(** The delay [getPreferences().frequency * 1000]. *)
Definition frequency_ms (site : Site) : M number :=
  let* prefs := getPreferences site JUndefined in
  lift (js_mul (get_prop prefs (js "frequency")) (JNum (Int 1000))).

(** [refreshList()]: refresh the list of changes. *)
Definition refreshList (site : Site) : M unit :=
  let* id := gets intervalId in
  clearInterval id >>
  populateList site false >>
  let* delay := frequency_ms site in
  let* id' := setInterval delay in
  modify (set_intervalId id').

(** The listener of [visibilitychange]. *)
Definition visibilitychange (site : Site) : M unit :=
  let* h := gets hidden in
  if h then ret tt
  else
    let* t := gets now in
    let* last := gets lastCheckedTime in
    let* delay := frequency_ms site in
    if num_gt (Int (t - last)) delay then refreshList site else ret tt.

(** The statements at the end of the script, after the portlet is made. *)
Definition main (site : Site) : M unit :=
  populateList site true >>
  let* delay := frequency_ms site in
  let* id := setInterval delay in
  modify (set_intervalId id).

(** ** The options dialog *)

Record dialog := {
  (** the preferences changed in the dialog *)
  newPrefs : gmap (list N) jsval;
  (** whether the box of [newOnly] is checked *)
  checkbox : bool
}.

Inductive dialog_event :=
  | ChooseOrigin (data : list N) (selected : bool)
  | ChooseNamespace (data : list N) (selected : bool)
  | ChooseDirection (data : list N) (selected : bool)
  | CheckboxChange (selected : bool)
  | QuantityChange (value : list N)
  | FrequencyChange (value : list N).

(** [initialize]: the widgets show the current preferences. *)
Definition initialize (site : Site) : M dialog :=
  let* prefs := getPreferences site JUndefined in
  ret {| newPrefs := ∅;
          checkbox := truthy (get_prop prefs (js "newOnly")) |}.

(** [value >= lo && value <= hi] on the text of a number input.  The
    comparison is on the exact value of the text: it is the comparison of
    JavaScript for the texts that are held exactly ([held_exactly]); a
    text such as [20.0000000000000000001], whose nearest double is 20, is
    let through by JavaScript and not here. *)
Definition between (value : list N) (lo hi : Z) : bool :=
  num_ge (StringToNumber value) (Int lo)
  && num_le (StringToNumber value) (Int hi).

(** The handlers of the widgets. *)
Definition dialog_handler (d : dialog) (e : dialog_event) : dialog :=
  match e with
  | ChooseOrigin data selected =>
      if selected
      then {| newPrefs := <[js "origin" := JStr data]> (newPrefs d);
              checkbox := checkbox d |}
      else d
  | ChooseNamespace data selected =>
      if selected
      then {| newPrefs := <[js "namespace" := JStr data]> (newPrefs d);
              checkbox := checkbox d |}
      else d
  | ChooseDirection data selected =>
      if selected
      then {| newPrefs := <[js "direction" := JStr data]> (newPrefs d);
              checkbox := checkbox d |}
      else d
  | CheckboxChange selected =>
      if selected
      then {| newPrefs := <[js "newOnly" := JBool true]> (newPrefs d);
              checkbox := selected |}
      else {| newPrefs := newPrefs d; checkbox := selected |}
  | QuantityChange value =>
      if between value 1 20
      then {| newPrefs := <[js "quantity" := JStr value]> (newPrefs d);
              checkbox := checkbox d |}
      else d
  | FrequencyChange value =>
      if between value 30 600
      then {| newPrefs := <[js "frequency" := JStr value]> (newPrefs d);
              checkbox := checkbox d |}
      else d
  end.

(** [getActionProcess(action)], up to posting the option. *)
Definition getActionProcess (site : Site) (d : dialog) (action : list N)
  : M unit :=
  if bool_decide (action = js "save") || bool_decide (action = js "reset") then
    let* newoptions := getPreferences site (JObj (newPrefs d)) in
    let newoptions :=
      if bool_decide (action = js "reset") then ∅ else newoptions in
    setPreferences newoptions
  else ret tt.

(** The callbacks on the outcome of the post,
    [setPreferences( newoptions ).then( f ).fail( g )].  The promise that
    [then] returns is rejected when the post fails and, in jQuery 3, when
    [f] throws: [g] runs in both cases (see [handle]). *)
Definition setPreferences_then (site : Site) : M unit :=
  modify (record_call DialogClose) >>
  refreshList site.

Definition setPreferences_fail (site : Site) : M unit :=
  modify (record_call (Notify (msg site (js "userjs-rcp-error")))).

(** ** The page over time *)

Inductive event :=
  (** the clock moves on *)
  | Tick (t : Z)
  (** a timer comes due *)
  | TimerFires (id : nat)
  (** the API answers a request, or fails *)
  | FetchDone (prefs : gmap (list N) jsval) (initial : bool)
              (data : gmap (list N) (list change))
  | FetchFail (error : list N) (errorObj : jsval)
  (** the tab is hidden or shown *)
  | VisibilityChange (h : bool)
  (** an action of an options dialog, and the outcome of its post *)
  | DialogAction (d : dialog) (action : list N)
  | PostDone
  | PostFail.

Definition handle (site : Site) (e : event) : M unit :=
  match e with
  | Tick t => modify (fun p => set_surroundings t (hidden p) p)
  | TimerFires id =>
      let* armed := gets (fun p => bool_decide (is_Some (timers p !! id))) in
      if armed then populateList site false else ret tt
  | FetchDone prefs initial data => populateList_done site prefs initial data
  | FetchFail error errorObj => populateList_fail error errorObj
  | VisibilityChange h =>
      modify (fun p => set_surroundings (now p) h p) >>
      visibilitychange site
  | DialogAction d action => getActionProcess site d action
  (* [.then( f ).fail( g )]: [g] is attached to the promise of [then], which
     is rejected when the post fails and also when [f] throws *)
  | PostDone =>
      try_catch (setPreferences_then site)
        (fun _ => setPreferences_fail site)
  | PostFail => setPreferences_fail site
  end.

(** An exception in a handler ends the handler; the page goes on. *)
Definition run (site : Site) (es : list event) (p : page) : page :=
  foldl (fun p e => exec (handle site e) p) p es.

(** The page when the script starts. *)
Definition start_page (stored : option option_text) (h : bool) (t : Z) : page :=
  {| userjs_rcp := stored; hidden := h; now := t;
     intervalId := None; lastCheckedTime := 0;
     timers := ∅; handles := 0; portlet := []; pending := false;
     calls := [] |}.

(** The pages the script can be in. *)
Definition reachable (site : Site) (p : page) : Prop :=
  ∃ stored h t es, p = run site es (exec (main site) (start_page stored h t)).

(** ** Properties of operations *)

(** [m] leaves every page in relation [R] with the page it started from,
    whether it returns or throws. *)
Definition keeps {A} (R : page -> page -> Prop) (m : M A) : Prop :=
  forall p, R p (exec m p).

(** The part [f] of the page is left as it was. *)
Definition unchanged {B} (f : page -> B) (p q : page) : Prop := f q = f p.

(** At most one timer is armed, and [intervalId] holds its handle. *)
Definition one_timer (p : page) : Prop :=
  forall id, is_Some (timers p !! id) -> intervalId p = Some id.

(** The six fields of the preferences. *)
Definition preference_fields : list (list N) :=
  [js "origin"; js "quantity"; js "frequency"; js "newOnly";
   js "namespace"; js "direction"].

(** A JSON text written with apostrophes in place of quotation marks. *)
Definition json_text (s : string) : list N :=
  (fun c => if (c =? 39)%N then 34%N else c) <$> js s.

Arguments json_text s%_string.

(** A wiki without configuration of its own. *)
Definition plain_site : Site :=
  {| rcp_config := JObj ∅;
     wgContentNamespaces := [0%Z];
     wgNamespaceIds :=
       [(js "", 0%Z); (js "talk", 1%Z); (js "user", 2%Z);
        (js "user_talk", 3%Z); (js "u", 2%Z); (js "project", 4%Z);
        (js "wp", 4%Z)];
     skin := js "vector";
     msg := fun key => key;
     fromNow := fun ts _ => ts |}.

(** The page of [plain_site] once the script has started, with no option
    set and the tab shown, at time 0. *)
Definition running_page : page :=
  exec (main plain_site) (start_page None false 0).


(** A page whose option holds [newOnly = true]. *)
Definition newOnly_page : page :=
  start_page (Some (Raw (json_text "{'newOnly':true,'quantity':5}"))) false 0.

(** An edit that takes a page from 700 to 100 bytes. *)
Definition shrinking_edit : change :=
  {| title := js "Main Page"; revid := 12345;
     timestamp := js "2024-12-27T10:00:00Z";
     oldlen := 700; newlen := 100; tags := []; type := js "edit" |}.

(** A page whose option is not valid JSON. *)
Definition malformed_page : page :=
  start_page (Some (Raw (js "{"))) false 0.

(** ** The messages

    The first statement of the script: the translations of
    [rcp-i18n.json] (an object from language code to an object of
    messages) are merged along the fallback chain of the user's language,
    from its last language to its first, and handed to [mw.messages]. *)

(** The loop [while ( i >= 0 )], with [n] iterations to go ([i = n - 1]). *)
Fixpoint messages_loop (translations : gmap (list N) jsval)
    (chain : list (list N)) (n : nat) (ret : gmap (list N) jsval)
  : gmap (list N) jsval :=
  match n with
  | O => ret
  | S i =>
      let lang := default (js "undefined") (chain !! i) in
      let ret :=
        match translations !! lang with
        | Some t => Object_assign ret t
        | None => ret
        end in
      messages_loop translations chain i ret
  end.

(** The object given to [mw.messages.set]. *)
Definition messages (translations : gmap (list N) jsval)
    (chain : list (list N)) : gmap (list N) jsval :=
  messages_loop translations chain (length chain) ∅.

(** ** More sample data *)

(** Translations into English and Norwegian Bokmål, the second partial. *)
Definition sample_translations : gmap (list N) jsval :=
  object_literal
    [ (js "en",
       JObj (object_literal
               [ (js "userjs-rcp-options", JStr (js "Options"));
                 (js "userjs-rcp-error", JStr (js "Error")) ]));
      (js "nb",
       JObj (object_literal
               [ (js "userjs-rcp-options", JStr (js "Innstillinger")) ])) ].

(** A wiki that configures one default of its own. *)
Definition partial_site : Site :=
  {| rcp_config :=
       JObj {[ js "defaultPrefs" :=
                 JObj {[ js "quantity" := JNum (Int 15) ]} ]};
     wgContentNamespaces := [0%Z];
     wgNamespaceIds := [(js "", 0%Z); (js "talk", 1%Z)];
     skin := js "vector";
     msg := fun key => key;
     fromNow := fun ts _ => ts |}.

(** A wiki whose [dangerousTags] is a string, not an array. *)
Definition misconfigured_site : Site :=
  {| rcp_config := JObj {[ js "dangerousTags" := JStr (js "mw-undo") ]};
     wgContentNamespaces := [0%Z];
     wgNamespaceIds := [(js "", 0%Z); (js "talk", 1%Z)];
     skin := js "vector";
     msg := fun key => key;
     fromNow := fun ts _ => ts |}.

(** A new page whose creation undid something. *)
Definition tagged_new_page : change :=
  {| title := js "Draft"; revid := 12346;
     timestamp := js "2024-12-27T10:05:00Z";
     oldlen := 0; newlen := 40; tags := [js "mw-undo"]; type := js "new" |}.

(** ** Calls and events of interest *)

(** The calls that reach the API or arm a timer. *)
Definition sends_or_arms (c : call) : bool :=
  match c with
  | ApiGet _ | ApiPostOptions _ | SetInterval _ _ => true
  | _ => false
  end.

(** The events of the dialog whose number input, if any, holds a text
    whose value is in JavaScript what it is here. *)
Definition number_input_exact (e : dialog_event) : bool :=
  match e with
  | QuantityChange value | FrequencyChange value =>
      held_exactly (StringToNumber value)
  | _ => true
  end.

(** The events that can come while the tab stays hidden: the clock moves
    on, a timer comes due, the tab is reported hidden again. *)
Definition in_background (e : event) : bool :=
  match e with
  | Tick _ | TimerFires _ | VisibilityChange true => true
  | _ => false
  end.

(** ** Numbers *)

Lemma Qred_int (z : Z) : Qred (z # 1)%Q = (z # 1)%Q.
Proof.
  unfold Qred.
  pose proof (Z.ggcd_gcd z 1) as Hg.
  pose proof (Z.ggcd_correct_divisors z 1) as Hd.
  destruct (Z.ggcd z 1) as [g [r1 r2]]; simpl in *.
  rewrite Z.gcd_1_r in Hg; subst g.
  destruct Hd as [H1 H2].
  rewrite Z.mul_1_l in H1, H2. by subst.
Qed.

Lemma finite_int (z : Z) : finite (z # 1)%Q = Int z.
Proof. unfold finite, Int. by rewrite Qred_int. Qed.

Lemma num_mul_int (a b : Z) : num_mul (Int a) (Int b) = Int (a * b).
Proof.
  unfold Int at 1 2; simpl. unfold Qmult; simpl.
  by rewrite finite_int.
Qed.

Lemma num_abs_int (a : Z) : num_abs (Int a) = Int (Z.abs a).
Proof. unfold Int at 1; simpl. by rewrite finite_int. Qed.

Lemma num_compare_int (a b : Z) :
  num_compare (Int a) (Int b) = Some (a ?= b)%Z.
Proof.
  unfold Int; simpl. unfold Qcompare; simpl. by rewrite !Z.mul_1_r.
Qed.


Lemma num_ge_int (a b : Z) : num_ge (Int a) (Int b) = (a >=? b)%Z.
Proof.
  unfold num_ge. rewrite num_compare_int. unfold Z.geb.
  by destruct (a ?= b)%Z.
Qed.

(** ** Decimal digits *)

Lemma digits_value_snoc radix ds d :
  digits_value radix (ds ++ [d]) = (digits_value radix ds * radix + d)%N.
Proof. unfold digits_value. by rewrite fold_left_app. Qed.

Lemma decimal_value_snoc ds c :
  decimal_value (ds ++ [c]) = (decimal_value ds * 10 + digit_value c)%N.
Proof. unfold decimal_value. rewrite fmap_app. apply digits_value_snoc. Qed.

Lemma is_digit_code (n : N) : (n < 10)%N -> is_digit (48 + n) = true.
Proof.
  intros. unfold is_digit.
  apply andb_true_intro; split; apply N.leb_le; lia.
Qed.

Lemma decimal_digits_fuel_spec fuel n :
  (n < 2 ^ N.of_nat fuel)%N ->
  Forall (fun c => is_digit c = true) (decimal_digits_fuel fuel n)
  /\ decimal_digits_fuel fuel n <> []
  /\ decimal_value (decimal_digits_fuel fuel n) = n.
Proof.
  revert n. induction fuel as [|fuel IH]; intros n Hn.
  - simpl in Hn. assert (n = 0%N) by lia. subst. by repeat constructor.
  - simpl. destruct (N.ltb_spec n 10) as [Hlt|Hge].
    + split; [|split]; [|done|].
      * repeat constructor. by apply is_digit_code.
      * unfold decimal_value, digits_value, digit_value; simpl. lia.
    + assert (Hq : (n / 10 < 2 ^ N.of_nat fuel)%N).
      { apply N.Div0.div_lt_upper_bound.
        rewrite Nat2N.inj_succ, N.pow_succ_r' in Hn.
        lia. }
      destruct (IH _ Hq) as (Hd & Hne & Hv).
      split; [|split].
      * apply Forall_app; split; [done|].
        repeat constructor. apply is_digit_code.
        apply N.mod_lt. lia.
      * by destruct (decimal_digits_fuel fuel (n / 10)).
      * rewrite decimal_value_snoc, Hv. unfold digit_value.
        clear IH Hd Hne Hv Hq Hn. pose proof (N.div_mod n 10 ltac:(lia)).
        pose proof (N.mod_lt n 10 ltac:(lia)).
        generalize dependent (n `div` 10)%N. generalize (n `mod` 10)%N. lia.
Qed.

Lemma decimal_digits_spec n :
  Forall (fun c => is_digit c = true) (decimal_digits n)
  /\ decimal_digits n <> []
  /\ decimal_value (decimal_digits n) = n.
Proof.
  apply decimal_digits_fuel_spec.
  rewrite N2Nat.id. apply N.size_gt.
Qed.

(** ** String to number *)

Lemma digit_not_whitespace c : is_digit c = true -> StrWhiteSpaceChar c = false.
Proof.
  unfold is_digit, StrWhiteSpaceChar. intros [H1 H2]%andb_true_iff.
  apply N.leb_le in H1, H2.
  apply orb_false_intro.
  - apply bool_decide_eq_false. rewrite !elem_of_cons, elem_of_nil. lia.
  - apply andb_false_intro1, N.leb_gt. lia.
Qed.

Lemma trim_end_id s :
  Forall (fun c => StrWhiteSpaceChar c = false) s -> trim_end s = s.
Proof.
  induction 1 as [|c r Hc Hr IH]; [done|].
  simpl. rewrite IH, Hc. by destruct r.
Qed.

Lemma trim_id c r :
  StrWhiteSpaceChar c = false ->
  Forall (fun c => StrWhiteSpaceChar c = false) r ->
  trim (c :: r) = c :: r.
Proof.
  intros Hc Hr. unfold trim. simpl. rewrite Hc.
  apply trim_end_id. by constructor.
Qed.

Lemma span_digits_all ds :
  Forall (fun c => is_digit c = true) ds -> span_digits ds = (ds, []).
Proof.
  induction 1 as [|c r Hc Hr IH]; [done|].
  simpl. by rewrite Hc, IH.
Qed.

Lemma digits_not_whitespace ds :
  Forall (fun c => is_digit c = true) ds ->
  Forall (fun c => StrWhiteSpaceChar c = false) ds.
Proof.
  intros H. eapply Forall_impl; [exact H|]. apply digit_not_whitespace.
Qed.

Lemma unsigned_decimal_literal_digits ds :
  Forall (fun c => is_digit c = true) ds -> ds <> [] ->
  unsigned_decimal_literal ds
  = Some (inject_Z (Z.of_N (decimal_value ds)) * 1)%Q.
Proof.
  intros Hd Hne. unfold unsigned_decimal_literal.
  rewrite span_digits_all by done. rewrite app_nil_r.
  destruct ds as [|d ds]; [done|]. simpl.
  unfold decimal_literal_value. by rewrite app_nil_r.
Qed.

Lemma finite_inject_mul_1 z : finite (inject_Z z * 1)%Q = Int z.
Proof.
  unfold inject_Z, Qmult; simpl. rewrite Z.mul_1_r. apply finite_int.
Qed.

(** A plus sign and decimal digits read back as the number. *)
Lemma StringToNumber_plus_digits ds :
  Forall (fun c => is_digit c = true) ds -> ds <> [] ->
  StringToNumber (43%N :: ds) = Int (Z.of_N (decimal_value ds)).
Proof.
  intros Hd Hne. unfold StringToNumber.
  rewrite trim_id; [|done|by apply digits_not_whitespace].
  cbv beta iota.
  rewrite bool_decide_eq_false_2.
  - rewrite unsigned_decimal_literal_digits by done.
    apply finite_inject_mul_1.
  - intros ->. by inversion Hd.
Qed.

(** The minus sign U+2212 is no sign of a numeric literal. *)
Lemma StringToNumber_minus_sign ds :
  Forall (fun c => is_digit c = true) ds ->
  StringToNumber (8722%N :: ds) = NaN.
Proof.
  intros Hd. unfold StringToNumber.
  rewrite trim_id; [|done|by apply digits_not_whitespace].
  cbv beta iota.
  rewrite bool_decide_eq_false_2 by done.
  by destruct ds.
Qed.

(** ** The classes for the size of a change *)

Lemma Z_toString_digits (z : Z) :
  (0 <= z)%Z ->
  Forall (fun c => is_digit c = true) (Z_toString z)
  /\ Z_toString z <> []
  /\ Z.of_N (decimal_value (Z_toString z)) = z.
Proof.
  intros Hz.
  assert (Z_toString z = decimal_digits (Z.to_N z)) as ->
    by (destruct z; [done|done|lia]).
  destruct (decimal_digits_spec (Z.to_N z)) as (Hd & Hne & Hv).
  rewrite Hv. split; [done|]. split; [done|]. lia.
Qed.

(** Membership in a list of literals, by evaluation. *)
Ltac elem_of_literals :=
  match goal with
  | |- ?x ∈ ?l => apply (bool_decide_unpack (x ∈ l)); vm_compute; exact I
  end.

Ltac not_elem_of_literals H :=
  match type of H with
  | ?x ∈ ?l =>
      apply (bool_decide_pack (x ∈ l)) in H; vm_compute in H; destruct H
  end.

(** What lines 178 to 191 compute. *)
Lemma sizeDiff_classes_eq (data : change) :
  let d := (newlen data - oldlen data)%Z in
  sizeDiff_classes data =
    if (d >? 0)%Z then
      ([js "userjs-rcp-item"; js "userjs-rcp-diff-positive"]
         ++ (if (d >=? 500)%Z then [js "userjs-rcp-diff-large"] else []),
       JStr (43%N :: Z_toString d))
    else if (d <? 0)%Z then
      ([js "userjs-rcp-item"; js "userjs-rcp-diff-negative"],
       JStr (8722%N :: Z_toString (Z.abs d)))
    else ([js "userjs-rcp-item"], JNum (Int 0)).
Proof.
  intros d. unfold sizeDiff_classes. fold d.
  destruct (Z.gtb_spec d 0) as [Hpos|Hle].
  - destruct (Z_toString_digits d) as (Hd & Hne & Hv); [lia|].
    unfold Math_abs, ToNumber.
    rewrite StringToNumber_plus_digits, Hv by done.
    rewrite num_abs_int, num_ge_int, Z.abs_eq by lia.
    by destruct (d >=? 500)%Z.
  - destruct (Z.ltb_spec d 0) as [Hneg|Hge].
    + destruct (Z_toString_digits (Z.abs d)) as (Hd & Hne & Hv); [lia|].
      unfold Math_abs, ToNumber.
      by rewrite StringToNumber_minus_sign.
    + by replace d with 0%Z by lia.
Qed.

(** C1, on the code: the classes for the size of a change.  The delta is
    [newlen - oldlen]; a strictly positive delta adds the class
    [userjs-rcp-diff-positive], a strictly negative one
    [userjs-rcp-diff-negative], zero neither.  The class
    [userjs-rcp-diff-large] is added exactly when the delta is at least
    500: [Math.abs] is applied to [sizeDiff] after it has become the
    display string, and a string that starts with the minus sign U+2212 is
    not a number.  A change from 700 to 100 bytes gets the classes of a
    negative change only. *)
Theorem sizeDiff_classes_large_iff :
  (forall data : change,
     let d := (newlen data - oldlen data)%Z in
     let classes := (sizeDiff_classes data).1 in
     (js "userjs-rcp-diff-positive" ∈ classes <-> (0 < d)%Z)
     /\ (js "userjs-rcp-diff-negative" ∈ classes <-> (d < 0)%Z)
     /\ (js "userjs-rcp-diff-large" ∈ classes <-> (500 <= d)%Z))
  /\ (forall t r ts tg ty,
        (sizeDiff_classes
           {| title := t; revid := r; timestamp := ts; oldlen := 700;
              newlen := 100; tags := tg; type := ty |}).1
        = [js "userjs-rcp-item"; js "userjs-rcp-diff-negative"]).
Proof.
  split.
  - intros data d classes. subst classes.
    rewrite sizeDiff_classes_eq. fold d.
    destruct (Z.gtb_spec d 0) as [Hpos|Hle];
      [destruct (Z.geb_spec d 500)|destruct (Z.ltb_spec d 0)];
      cbn [fst app];
      (split; [|split]); (split; [|lia || (intros; elem_of_literals)]);
      intros Hin; first [lia | not_elem_of_literals Hin].
  - intros. by rewrite sizeDiff_classes_eq.
Qed.

(** ** JSON.parse never runs out of fuel *)

Lemma skip_ws_length s : length (skip_ws s) <= length s.
Proof.
  induction s as [|c r IH]; simpl; [lia|].
  destruct (json_ws c); simpl; lia.
Qed.

Lemma literal_length pre s r :
  literal pre s = Some r -> length s = length pre + length r.
Proof.
  revert s. induction pre as [|p pre IH]; intros s; simpl.
  - by intros [= ->].
  - destruct s as [|c s]; [done|].
    destruct (p =? c)%N; [|done].
    intros H%IH. simpl. lia.
Qed.

Lemma prepend_Some c o cs r :
  prepend c o = Some (cs, r) -> exists cs', o = Some (cs', r).
Proof.
  destruct o as [[cs' r']|]; simpl; [|done].
  intros [= _ ->]. eauto.
Qed.

Lemma parse_string_chars_length s cs r :
  parse_string_chars s = Some (cs, r) -> length r < length s.
Proof.
  remember (length s) as n eqn:Hn.
  assert (Hle : length s <= n) by lia. clear Hn.
  revert s cs r Hle.
  induction n as [|n IH]; intros s cs r Hle; destruct s as [|c s];
    simpl in *; try done; try lia.
  destruct (c =? 34)%N; [intros [= _ ->]; lia|].
  destruct (c =? 92)%N.
  - destruct s as [|e t]; [done|].
    destruct (e =? 117)%N.
    + destruct t as [|a [|b [|c' [|d t']]]]; try done.
      destruct (hex4 a b c' d); [|done].
      intros [cs' H]%prepend_Some. apply IH in H; simpl in *; lia.
    + destruct (escape e); [|done].
      intros [cs' H]%prepend_Some. apply IH in H; simpl in *; lia.
  - destruct (c <? 32)%N; [done|].
    intros [cs' H]%prepend_Some. apply IH in H; simpl in *; lia.
Qed.

Lemma span_digits_length s ds r :
  span_digits s = (ds, r) -> length s = length ds + length r.
Proof.
  revert ds r. induction s as [|c s IH]; intros ds r; simpl.
  - by intros [= <- <-].
  - destruct (is_digit c).
    + destruct (span_digits s) as [ds' r'] eqn:E.
      intros [= <- <-]. specialize (IH _ _ eq_refl). simpl. lia.
    + by intros [= <- <-].
Qed.

Lemma json_int_length s ip r :
  json_int s = Some (ip, r) -> length r < length s.
Proof.
  destruct s as [|c s]; simpl; [done|].
  destruct (c =? 48)%N; [intros [= _ <-]; lia|].
  destruct (is_digit c) eqn:Hc; [|done].
  destruct (span_digits s) as [ds' r'] eqn:E.
  intros [= _ <-]. apply span_digits_length in E. lia.
Qed.

Lemma json_frac_length s fp r :
  json_frac s = Some (fp, r) -> length r <= length s.
Proof.
  destruct s as [|c s]; simpl; [by intros [= _ <-]|].
  destruct (c =? 46)%N; [|by intros [= _ <-]].
  destruct (span_digits s) as [[|d ds] r'] eqn:E; [done|].
  intros [= _ <-]. apply span_digits_length in E. lia.
Qed.

Lemma json_exp_length s e r :
  json_exp s = Some (e, r) -> length r <= length s.
Proof.
  destruct s as [|c s]; simpl; [by intros [= _ <-]|].
  destruct ((c =? 101)%N || (c =? 69)%N); [|by intros [= _ <-]].
  assert (Hsign : exists b t,
      match s with
      | sg :: t0 =>
          if (sg =? 43)%N then (false, t0)
          else if (sg =? 45)%N then (true, t0) else (false, s)
      | [] => (false, s)
      end = (b, t) /\ length t <= length s).
  { destruct s as [|sg t0]; [by eexists _, _|].
    destruct (sg =? 43)%N; [eexists _, _; split; [done|simpl; lia]|].
    destruct (sg =? 45)%N; eexists _, _; (split; [done|simpl; lia]). }
  destruct Hsign as (b & t & -> & Ht).
  destruct (span_digits t) as [[|d ds] r'] eqn:E; [done|].
  intros [= _ <-]. apply span_digits_length in E. lia.
Qed.

Lemma parse_number_length s :
  parse_number s <> OutOfFuel
  /\ forall v r, parse_number s = Parsed v r -> length r < length s.
Proof.
  unfold parse_number.
  assert (Hsign : exists b s1,
    match s with
    | c :: r => if (c =? 45)%N then (true, r) else (false, s)
    | [] => (false, s)
    end = (b, s1) /\ length s1 <= length s).
  { destruct s as [|c r]; [by eexists _, _|].
    destruct (c =? 45)%N; eexists _, _; (split; [done|simpl; lia]). }
  destruct Hsign as (b & s1 & -> & Hs1).
  destruct (json_int s1) as [[ip r1]|] eqn:Ei; [|done].
  destruct (json_frac r1) as [[fp r2]|] eqn:Ef; [|done].
  destruct (json_exp r2) as [[e r3]|] eqn:Ee; [|done].
  split; [done|]. intros v r [= _ <-].
  apply json_int_length in Ei. apply json_frac_length in Ef.
  apply json_exp_length in Ee. lia.
Qed.

Lemma parse_scalar_length s :
  parse_scalar s <> OutOfFuel
  /\ forall v r, parse_scalar s = Parsed v r -> length r < length s.
Proof.
  destruct (parse_number_length s) as [Hn1 Hn2].
  unfold parse_scalar. destruct s as [|c s]; [done|].
  destruct (c =? 34)%N.
  { destruct (parse_string_chars s) as [[cs rest]|] eqn:E; [|done].
    split; [done|]. intros v r [= _ <-].
    apply parse_string_chars_length in E. simpl; lia. }
  destruct (literal (js "true") (c :: s)) as [rest|] eqn:E1.
  { split; [done|]. intros v r [= _ <-].
    apply literal_length in E1. rewrite E1. simpl. lia. }
  destruct (literal (js "false") (c :: s)) as [rest|] eqn:E2.
  { split; [done|]. intros v r [= _ <-].
    apply literal_length in E2. rewrite E2. simpl. lia. }
  destruct (literal (js "null") (c :: s)) as [rest|] eqn:E3.
  { split; [done|]. intros v r [= _ <-].
    apply literal_length in E3. rewrite E3. simpl. lia. }
  done.
Qed.

Lemma parse_fuel fuel :
  (forall s, 2 * length s + 1 <= fuel ->
     parse_value fuel s <> OutOfFuel
     /\ forall v r, parse_value fuel s = Parsed v r -> length r < length s)
  /\ (forall s acc, 2 * length s + 2 <= fuel ->
        parse_elements fuel s acc <> OutOfFuel
        /\ forall v r, parse_elements fuel s acc = Parsed v r ->
                       length r < length s)
  /\ (forall s acc, 2 * length s + 2 <= fuel ->
        parse_members fuel s acc <> OutOfFuel
        /\ forall v r, parse_members fuel s acc = Parsed v r ->
                       length r < length s).
Proof.
  induction fuel as [|fuel (IHv & IHe & IHm)].
  { repeat split; intros; lia. }
  split; [|split].
  - intros s Hs. cbn -[literal skip_ws parse_scalar parse_string_chars].
    pose proof (skip_ws_length s) as Hws.
    destruct (skip_ws s) as [|c r] eqn:Es; [by split|]. simpl in Hws.
    pose proof (skip_ws_length r) as Hwr.
    destruct (c =? 123)%N.
    { destruct (literal [125%N] (skip_ws r)) as [rest|] eqn:El.
      - split; [done|]. intros v r' [= _ <-].
        apply literal_length in El. simpl in El. lia.
      - destruct (IHm (skip_ws r) ∅) as [H1 H2]; [lia|].
        split; [done|]. intros v r' H%H2. lia. }
    destruct (c =? 91)%N.
    { destruct (literal [93%N] (skip_ws r)) as [rest|] eqn:El.
      - split; [done|]. intros v r' [= _ <-].
        apply literal_length in El. simpl in El. lia.
      - destruct (IHe (skip_ws r) []) as [H1 H2]; [lia|].
        split; [done|]. intros v r' H%H2. lia. }
    destruct (parse_scalar_length (c :: r)) as [H1 H2].
    split; [done|]. intros v r' H%H2. simpl in H. lia.
  - intros s acc Hs. cbn -[literal skip_ws parse_scalar parse_string_chars].
    destruct (IHv s) as [H1 H2]; [lia|].
    destruct (parse_value fuel s) as [v r| |] eqn:Ev; [|by split|by split].
    specialize (H2 _ _ eq_refl).
    pose proof (skip_ws_length r) as Hwr.
    destruct (skip_ws r) as [|c r'] eqn:Er; [by split|]. simpl in Hwr.
    destruct (c =? 44)%N.
    { destruct (IHe r' (acc ++ [v])) as [H3 H4]; [lia|].
      split; [done|]. intros v' r'' H%H4. lia. }
    destruct (c =? 93)%N; [|by split].
    split; [done|]. intros v' r'' [= _ <-]. lia.
  - intros s acc Hs. cbn -[literal skip_ws parse_scalar parse_string_chars].
    pose proof (skip_ws_length s) as Hws.
    destruct (literal [34%N] (skip_ws s)) as [r|] eqn:El; [|by split].
    apply literal_length in El. simpl in El.
    destruct (parse_string_chars r) as [[k r1]|] eqn:Ek; [|by split].
    apply parse_string_chars_length in Ek.
    pose proof (skip_ws_length r1) as Hw1.
    destruct (literal [58%N] (skip_ws r1)) as [r2|] eqn:Ec; [|by split].
    apply literal_length in Ec. simpl in Ec.
    destruct (IHv r2) as [H1 H2]; [lia|].
    destruct (parse_value fuel r2) as [v r3| |] eqn:Ev; [|by split|by split].
    specialize (H2 _ _ eq_refl).
    pose proof (skip_ws_length r3) as Hw3.
    destruct (skip_ws r3) as [|c r4] eqn:Er; [by split|]. simpl in Hw3.
    destruct (c =? 44)%N.
    { destruct (IHm r4 (<[k:=v]> acc)) as [H3 H4]; [lia|].
      split; [done|]. intros v' r'' H%H4. lia. }
    destruct (c =? 125)%N; [|by split].
    split; [done|]. intros v' r'' [= _ <-]. lia.
Qed.

(** The fuel [JSON_parse] gives the parser is never used up: a
    SyntaxError of the model is a malformed text. *)
Lemma parse_value_fuel s : parse_value (json_fuel s) s <> OutOfFuel.
Proof. apply parse_fuel. unfold json_fuel. lia. Qed.

Lemma JSON_parse_error s e : JSON_parse s = Throw e -> e = SyntaxError.
Proof.
  unfold JSON_parse. destruct (parse_value _ s) as [v rest| |].
  - by destruct (skip_ws rest); intros [=].
  - by intros [=].
  - by intros [=].
Qed.

(** ** The monad *)

Lemma exec_bind {A B} (m : M A) (f : A -> M B) p :
  exec (bind m f) p =
    match m p with
    | (Normal a, p') => exec (f a) p'
    | (Throw _, p') => p'
    end.
Proof. unfold exec, bind. by destruct (m p) as [[a|e] p']. Qed.

Section keeps.
Context (R : page -> page -> Prop).
Hypothesis R_refl : forall p, R p p.
Hypothesis R_trans : forall p q r, R p q -> R q r -> R p r.

Lemma keeps_ret {A} (a : A) : keeps R (ret a).
Proof. intros p. apply R_refl. Qed.

Lemma keeps_throw {A} e : keeps R (@throw A e).
Proof. intros p. apply R_refl. Qed.

Lemma keeps_gets {A} (f : page -> A) : keeps R (gets f).
Proof. intros p. apply R_refl. Qed.

Lemma keeps_lift {A} (c : completion A) : keeps R (lift c).
Proof. intros p. apply R_refl. Qed.

Lemma keeps_modify f : (forall p, R p (f p)) -> keeps R (modify f).
Proof. intros H p. apply H. Qed.

Lemma keeps_bind {A B} (m : M A) (f : A -> M B) :
  keeps R m -> (forall a, keeps R (f a)) -> keeps R (bind m f).
Proof.
  intros Hm Hf p. rewrite exec_bind.
  specialize (Hm p). unfold exec in Hm.
  destruct (m p) as [[a|e] p']; simpl in Hm; [|done].
  eapply R_trans; [exact Hm|]. apply Hf.
Qed.

Lemma keeps_for_each {A} (f : A -> M unit) l :
  (forall a, keeps R (f a)) -> keeps R (for_each f l).
Proof.
  intros Hf. induction l as [|x l IH]; simpl.
  - apply keeps_ret.
  - by apply keeps_bind.
Qed.
End keeps.

Lemma unchanged_refl {B} (f : page -> B) p : unchanged f p p.
Proof. done. Qed.

Lemma unchanged_trans {B} (f : page -> B) p q r :
  unchanged f p q -> unchanged f q r -> unchanged f p r.
Proof. unfold unchanged. congruence. Qed.

(** Breaks an operation into its steps; leaves the steps that change the
    part in question. *)
Ltac keeps_steps :=
  repeat first
    [ apply keeps_ret; [apply unchanged_refl]
    | apply keeps_throw; [apply unchanged_refl]
    | apply keeps_gets; [apply unchanged_refl]
    | apply keeps_lift; [apply unchanged_refl]
    | apply keeps_modify; intros; reflexivity
    | apply keeps_bind; [apply unchanged_trans | | intros]
    | apply keeps_for_each;
        [apply unchanged_refl | apply unchanged_trans | intros]
    | match goal with
      | |- keeps _ (if ?b then _ else _) => destruct b
      | |- keeps _ (match ?x with _ => _ end) => destruct x
      end ].

(** *** Reading the preferences *)

Lemma getPreferences_reads site np p :
  exists c, forall q,
    userjs_rcp q = userjs_rcp p -> getPreferences site np q = (c, q).
Proof.
  unfold getPreferences, bind, gets, lift, ret.
  destruct (parse_userjs_rcp (userjs_rcp p)) as [parsed|e] eqn:E.
  - eexists. intros q ->. by rewrite E.
  - eexists. intros q ->. by rewrite E.
Qed.

Lemma getPreferences_page site np p c q :
  getPreferences site np p = (c, q) -> q = p.
Proof.
  destruct (getPreferences_reads site np p) as [c' H].
  rewrite (H p eq_refl). by intros [= _ <-].
Qed.

Lemma getPreferences_same_store site np p q c :
  getPreferences site np p = (c, p) -> userjs_rcp q = userjs_rcp p ->
  getPreferences site np q = (c, q).
Proof.
  intros Hp Hq. destruct (getPreferences_reads site np p) as [c' H].
  rewrite (H p eq_refl) in Hp. injection Hp as ->. by apply H.
Qed.

Lemma keeps_getPreferences {B} (f : page -> B) site np :
  keeps (unchanged f) (getPreferences site np).
Proof.
  intros p. unfold exec.
  destruct (getPreferences site np p) as [c q] eqn:E.
  apply getPreferences_page in E. by subst.
Qed.

Lemma frequency_ms_eq site p prefs :
  getPreferences site JUndefined p = (Normal prefs, p) ->
  frequency_ms site p
  = (js_mul (get_prop prefs (js "frequency")) (JNum (Int 1000)), p).
Proof. intros H. unfold frequency_ms, bind. by rewrite H. Qed.

Lemma frequency_ms_page site p c q : frequency_ms site p = (c, q) -> q = p.
Proof.
  unfold frequency_ms, bind, lift.
  destruct (getPreferences site JUndefined p) as [[prefs|e] p'] eqn:E;
    apply getPreferences_page in E; subst; by intros [= _ <-].
Qed.

(** *** What each operation leaves alone *)

Lemma keeps_getUnpatrolled_timers site prefs :
  keeps (unchanged (fun p => (timers p, intervalId p, handles p)))
        (getUnpatrolled site prefs).
Proof. unfold getUnpatrolled. keeps_steps. Qed.

Lemma keeps_populateList_timers site initial :
  keeps (unchanged (fun p => (timers p, intervalId p, handles p)))
        (populateList site initial).
Proof.
  unfold populateList. keeps_steps.
Qed.


Lemma keeps_createPortletEntry {B} (f : page -> B) site data :
  (forall l p, f (set_portlet l p) = f p) ->
  keeps (unchanged f) (createPortletEntry site data).
Proof.
  intros Hf. unfold createPortletEntry, addPortletLink, decorate_last.
  destruct (sizeDiff_classes data).
  keeps_steps; try apply keeps_modify; intros; apply Hf.
Qed.

Lemma keeps_populateList_done {B} (f : page -> B) site prefs initial data :
  (forall l p, f (set_portlet l p) = f p) ->
  (forall b p, f (set_pending b p) = f p) ->
  keeps (unchanged f) (populateList_done site prefs initial data).
Proof.
  intros Hf Hg. unfold populateList_done, addPortletLink.
  keeps_steps;
    first [ apply keeps_modify; intros; first [apply Hf | apply Hg]
          | by apply keeps_createPortletEntry ].
Qed.

Lemma keeps_getActionProcess_timers site d action :
  keeps (unchanged (fun p => (timers p, intervalId p, handles p)))
        (getActionProcess site d action).
Proof.
  unfold getActionProcess, setPreferences. keeps_steps.
Qed.

(** ** The query *)

(** C6: the list type is [watchlist] with prefix [wl] if and only if the
    origin is the string [watchlist]; every other value, recognised or
    not, gives [recentchanges] with prefix [rc]. *)
Theorem getApiListType_watchlist_iff (origin : jsval) :
  (origin = JStr (js "watchlist") <->
     getApiListType origin
     = {| list_name := js "watchlist"; prefix := js "wl" |})
  /\ (origin <> JStr (js "watchlist") <->
        getApiListType origin
        = {| list_name := js "recentchanges"; prefix := js "rc" |}).
Proof.
  unfold getApiListType.
  destruct (strict_eq_string origin (js "watchlist")) eqn:E.
  - assert (origin = JStr (js "watchlist")) as ->.
    { destruct origin; try discriminate E.
      by apply bool_decide_eq_true in E as ->. }
    split; split; try done;
      intros H; vm_compute in H; discriminate H.
  - assert (origin <> JStr (js "watchlist")) as Hne.
    { intros ->. unfold strict_eq_string in E.
      by rewrite bool_decide_eq_true_2 in E. }
    split; split; try done;
      intros H; vm_compute in H; discriminate H.
Qed.

Lemma Set_spread_step l : forall seen,
  NoDup seen ->
  let r := fold_left
             (fun seen x => if bool_decide (x ∈ seen) then seen
                            else seen ++ [x]) l seen in
  NoDup r /\ forall x : Z, x ∈ r <-> x ∈ seen \/ x ∈ l.
Proof.
  induction l as [|y l IH]; intros seen Hseen; simpl.
  - split; [done|]. intros x. rewrite elem_of_nil. tauto.
  - destruct (decide (y ∈ seen)) as [Hy|Hy].
    + rewrite bool_decide_eq_true_2 by done.
      destruct (IH seen Hseen) as [Hnd Hin]. split; [done|].
      intros x. rewrite Hin, elem_of_cons.
      split; [tauto|]. intros [?|[->|?]]; tauto.
    + rewrite bool_decide_eq_false_2 by done.
      assert (Hnd' : NoDup (seen ++ [y])).
      { apply NoDup_app. split; [done|]. split; [|apply NoDup_singleton].
        intros x Hx ->%list_elem_of_singleton. done. }
      destruct (IH _ Hnd') as [Hnd Hin]. split; [done|].
      intros x. rewrite Hin, elem_of_app, list_elem_of_singleton, elem_of_cons.
      tauto.
Qed.

Lemma Set_spread_spec l :
  NoDup (Set_spread l) /\ forall x, x ∈ Set_spread l <-> x ∈ l.
Proof.
  destruct (Set_spread_step l [] (NoDup_nil_2)) as [Hnd Hin].
  split; [done|]. intros x. unfold Set_spread. rewrite Hin, elem_of_nil.
  tauto.
Qed.

(** C4: with [namespace = 'noncontent'] the request restricts the
    namespaces to those of [wgNamespaceIds] that are not content
    namespaces, each of them once, whatever duplicates [wgNamespaceIds]
    holds; and this is the request that is sent. *)
Theorem getUnpatrolled_noncontent (site : Site)
    (prefs : gmap (list N) jsval) (p : page) :
  get_prop prefs (js "namespace") = JStr (js "noncontent") ->
  exists l : list Z,
    unpatrolled_request site prefs
      !! (prefix (getApiListType (get_prop prefs (js "origin")))
            ++ js "namespace")
    = Some (namespace_array l)
    /\ NoDup l
    /\ (forall ns, ns ∈ l <->
          ns ∈ Object_values (wgNamespaceIds site)
          /\ ns ∉ wgContentNamespaces site)
    /\ calls (exec (getUnpatrolled site prefs) p)
       = calls p ++ [ApiGet (unpatrolled_request site prefs)].
Proof.
  intros Hns.
  exists (filter (fun ns => ns ∉ wgContentNamespaces site)
            (Set_spread (Object_values (wgNamespaceIds site)))).
  destruct (Set_spread_spec (Object_values (wgNamespaceIds site)))
    as [Hnd Hin].
  split; [|split; [|split]].
  - unfold unpatrolled_request. rewrite Hns.
    change (strict_eq_string (JStr (js "noncontent")) (js "content"))
      with false.
    change (strict_eq_string (JStr (js "noncontent")) (js "noncontent"))
      with true.
    cbv beta iota. apply lookup_insert_eq.
  - by apply NoDup_filter.
  - intros ns. rewrite list_elem_of_filter, Hin. tauto.
  - done.
Qed.

(** ** Rendering *)

(** C5: when the answer holds no change, the callback adds exactly one
    entry, the notice that there are no unpatrolled changes, and no link
    of a change: the list is that notice alone, after what a first call
    found there. *)
Theorem populateList_done_empty (site : Site) (prefs : gmap (list N) jsval)
    (initial : bool) (data : gmap (list N) (list change)) p :
  data !! list_name (getApiListType (get_prop prefs (js "origin"))) = Some [] ->
  exists p',
    populateList_done site prefs initial data p = (Normal tt, p')
    /\ portlet p'
       = (if initial then portlet p else [])
           ++ [EmptyNotice (msg site (js "userjs-rcp-portlet-empty"))]
    /\ (forall it, ChangeLink it ∈ portlet p' ->
          initial = true /\ ChangeLink it ∈ portlet p).
Proof.
  intros Hdata. unfold populateList_done. rewrite Hdata.
  destruct initial; eexists; (split; [reflexivity|]); simpl;
    (split; [done|]); intros it.
  - rewrite elem_of_app, list_elem_of_singleton. by intros [?|[=]].
  - rewrite list_elem_of_singleton. by intros [=].
Qed.

(** The link of a change, given whether a dangerous tag was found. *)
Lemma createPortletEntry_eq (site : Site) (data : change) (p : page)
    (dangerous : bool) :
  has_dangerous_tag site data = Normal dangerous ->
  createPortletEntry site data p
  = (Normal tt,
     set_portlet
       (portlet p ++
        [ChangeLink
           {| item_title := title data;
              item_diff := revid data;
              item_classes :=
                (sizeDiff_classes data).1
                  ++ (if bool_decide (type data = js "new")
                      then [js "userjs-rcp-item-new"] else [])
                  ++ (if dangerous then [js "userjs-rcp-item-highlight"]
                      else []);
              item_diffsize := (sizeDiff_classes data).2;
              item_indicator_new :=
                if bool_decide (type data = js "new")
                then Some (msg site (js "userjs-rcp-indicator-new"))
                else None;
              item_indicator_highlight :=
                if dangerous
                then Some (msg site (js "userjs-rcp-indicator-highlight"))
                else None;
              item_fromNow := fromNow site (timestamp data) (now p);
              item_minerva := bool_decide (skin site = js "minerva") |}]) p).
Proof.
  intros Hd. unfold createPortletEntry.
  destruct (sizeDiff_classes data) as [classes diffsize].
  unfold bind, addPortletLink, decorate_last, modify, lift, gets, ret.
  destruct (bool_decide (type data = js "new")), dangerous;
    rewrite Hd; cbn [fst snd portlet set_portlet now];
    rewrite !removelast_last; unfold set_portlet; cbn;
    by rewrite <-?app_assoc, ?app_nil_r.
Qed.

(** The link [createPortletEntry] adds carries the classes for the size of
    the change, then the class of a new page, then the class of a
    dangerous tag. *)
Lemma createPortletEntry_classes (site : Site) (data : change) (p : page)
    (dangerous : bool) :
  has_dangerous_tag site data = Normal dangerous ->
  exists it,
    (createPortletEntry site data p).1 = Normal tt
    /\ portlet (exec (createPortletEntry site data) p)
       = portlet p ++ [ChangeLink it]
    /\ item_classes it
       = (sizeDiff_classes data).1
           ++ (if bool_decide (type data = js "new")
               then [js "userjs-rcp-item-new"] else [])
           ++ (if dangerous then [js "userjs-rcp-item-highlight"] else [])
    /\ item_diffsize it = (sizeDiff_classes data).2.
Proof.
  intros Hd. eexists. unfold exec.
  by rewrite (createPortletEntry_eq _ _ _ _ Hd).
Qed.

Example createPortletEntry_shrinking_edit :
  portlet (exec (createPortletEntry plain_site shrinking_edit)
             (start_page None false 0))
  = [ChangeLink
       {| item_title := js "Main Page";
          item_diff := 12345;
          item_classes :=
            [js "userjs-rcp-item"; js "userjs-rcp-diff-negative"];
          item_diffsize := JStr (8722%N :: js "600");
          item_indicator_new := None;
          item_indicator_highlight := None;
          item_fromNow := js "2024-12-27T10:00:00Z";
          item_minerva := false |}].
Proof. vm_compute. reflexivity. Qed.

(** ** Failure of a request *)




(** ** The timer *)

Lemma one_timer_empty p : timers p = ∅ -> one_timer p.
Proof. intros H id. rewrite H, lookup_empty. by intros [? [=]]. Qed.

Lemma one_timer_single p i d :
  timers p = {[i := d]} -> intervalId p = Some i -> one_timer p.
Proof.
  intros Ht Hi id. rewrite Ht, Hi.
  intros [x [<- _]%lookup_singleton_Some]. done.
Qed.

Lemma one_timer_unchanged p q :
  unchanged (fun p => (timers p, intervalId p, handles p)) p q ->
  one_timer p -> one_timer q.
Proof.
  unfold unchanged. intros [= Ht Hi _] H id. rewrite Ht, Hi. apply H.
Qed.


Lemma clearInterval_eq id p :
  clearInterval id p
  = (Normal tt,
     record_call (ClearInterval id)
       (set_timers (match id with
                    | Some i => delete i (timers p)
                    | None => timers p
                    end) (handles p) p)).
Proof. done. Qed.

(** [clearInterval(intervalId)] leaves no timer armed. *)
Lemma clearInterval_disarms p :
  one_timer p -> timers (exec (clearInterval (intervalId p)) p) = ∅.
Proof.
  intros H. unfold exec. rewrite clearInterval_eq. simpl.
  apply map_empty. intros j.
  destruct (intervalId p) as [i|] eqn:Hi.
  - destruct (decide (j = i)) as [->|Hne]; [apply lookup_delete_eq|].
    rewrite lookup_delete_ne by done.
    destruct (timers p !! j) eqn:Hj; [|done].
    specialize (H j (mk_is_Some _ _ Hj)). congruence.
  - destruct (timers p !! j) eqn:Hj; [|done].
    specialize (H j (mk_is_Some _ _ Hj)). congruence.
Qed.

(** Arming the timer, the last three steps of [refreshList] and [main]. *)
Lemma arm_one_timer site p :
  timers p = ∅ ->
  one_timer
    (exec (let* delay := frequency_ms site in
           let* id' := setInterval delay in
           modify (set_intervalId id')) p).
Proof.
  intros Ht. rewrite exec_bind.
  destruct (frequency_ms site p) as [[delay|e] q] eqn:E;
    apply frequency_ms_page in E; subst q; [|by apply one_timer_empty].
  unfold exec, bind, setInterval, modify. simpl.
  eapply one_timer_single; simpl; [|done].
  by rewrite Ht, insert_empty.
Qed.

Lemma one_timer_refreshList site p :
  one_timer p -> one_timer (exec (refreshList site) p).
Proof.
  intros H. unfold refreshList.
  rewrite exec_bind. unfold gets at 1.
  rewrite exec_bind.
  pose proof (clearInterval_disarms p H) as Hclear. unfold exec in Hclear.
  destruct (clearInterval (intervalId p) p) as [[[]|e] p1] eqn:E1;
    simpl in Hclear; [|by apply one_timer_empty].
  rewrite exec_bind.
  pose proof (keeps_populateList_timers site false p1) as Hk.
  unfold unchanged, exec in Hk.
  destruct (populateList site false p1) as [[[]|e] p2] eqn:E2;
    simpl in Hk; injection Hk as Ht Hi Hh;
    [|apply one_timer_empty; congruence].
  apply arm_one_timer. congruence.
Qed.

Lemma one_timer_main site stored h t :
  one_timer (exec (main site) (start_page stored h t)).
Proof.
  unfold main. rewrite exec_bind.
  pose proof (keeps_populateList_timers site true (start_page stored h t))
    as Hk.
  unfold unchanged, exec in Hk.
  destruct (populateList site true _) as [[[]|e] p2] eqn:E2;
    simpl in Hk; injection Hk as Ht Hi Hh;
    [|by apply one_timer_empty].
  by apply arm_one_timer.
Qed.

Lemma one_timer_visibilitychange site p :
  one_timer p -> one_timer (exec (visibilitychange site) p).
Proof.
  intros H. unfold visibilitychange.
  rewrite exec_bind. unfold gets at 1.
  destruct (hidden p); [done|].
  rewrite exec_bind. unfold gets at 1.
  rewrite exec_bind. unfold gets at 1.
  rewrite exec_bind.
  destruct (frequency_ms site p) as [[delay|e] q] eqn:E;
    apply frequency_ms_page in E; subst q; [|done].
  destruct (num_gt _ _); [by apply one_timer_refreshList|done].
Qed.

Lemma one_timer_handle site e p :
  one_timer p -> one_timer (exec (handle site e) p).
Proof.
  intros H. destruct e; simpl.
  - done.
  - rewrite exec_bind. unfold gets at 1.
    destruct (bool_decide _); [|done].
    eapply one_timer_unchanged; [apply keeps_populateList_timers|done].
  - eapply one_timer_unchanged; [|done].
    by apply keeps_populateList_done.
  - done.
  - rewrite exec_bind. unfold modify at 1.
    by apply one_timer_visibilitychange.
  - eapply one_timer_unchanged;
      [apply keeps_getActionProcess_timers|done].
  - assert (H1 : one_timer (exec (setPreferences_then site) p)).
    { unfold setPreferences_then. rewrite exec_bind. unfold modify at 1.
      by apply one_timer_refreshList. }
    unfold exec, try_catch in *.
    by destruct (setPreferences_then site p) as [[[]|e'] q].
  - done.
Qed.

Lemma one_timer_run site es p : one_timer p -> one_timer (run site es p).
Proof.
  revert p. induction es as [|e es IH]; intros p H; [done|].
  simpl. apply IH. by apply one_timer_handle.
Qed.

(** On every page the script reaches, at most one timer is armed. *)
Lemma reachable_one_timer site p : reachable site p -> one_timer p.
Proof.
  intros (stored & h & t & es & ->).
  apply one_timer_run, one_timer_main.
Qed.

(** *** What [populateList] and [refreshList] do *)

Lemma bind_gets {A B} (f : page -> A) (k : A -> M B) p :
  bind (gets f) k p = k (f p) p.
Proof. done. Qed.

Lemma bind_normal {A B} (m : M A) (k : A -> M B) p a q :
  m p = (Normal a, q) -> bind m k p = k a q.
Proof. intros H. unfold bind. by rewrite H. Qed.

Lemma populateList_hidden site initial p :
  hidden p = true -> populateList site initial p = (Normal tt, p).
Proof. intros H. unfold populateList, bind, gets. by rewrite H. Qed.

Lemma populateList_visible site initial p prefs :
  hidden p = false ->
  getPreferences site JUndefined p = (Normal prefs, p) ->
  populateList site initial p
  = (Normal tt,
     record_call (ApiGet (unpatrolled_request site prefs))
       (set_lastCheckedTime (now p)
          (if initial then p else set_pending true p))).
Proof.
  intros Hh Hp. unfold populateList, bind, gets. rewrite Hh, Hp.
  by destruct initial.
Qed.

Lemma js_mul_frequency (v : jsval) n :
  ToNumber v = Normal n ->
  js_mul v (JNum (Int 1000)) = Normal (num_mul n (Int 1000)).
Proof. intros H. unfold js_mul. by rewrite H. Qed.

Lemma refreshList_eq (site : Site) (p : page)
    (prefs : gmap (list N) jsval) (n : number) :
  getPreferences site JUndefined p = (Normal prefs, p) ->
  ToNumber (get_prop prefs (js "frequency")) = Normal n ->
  let id := S (handles p) in
  let delay := num_mul n (Int 1000) in
  let p1 := exec (clearInterval (intervalId p)) p in
  let p2 := exec (populateList site false) p1 in
  refreshList site p
  = (Normal tt,
     set_intervalId id
       (record_call (SetInterval id delay)
          (set_timers (<[id:=delay]> (timers p2)) id p2)))
  /\ calls p2
     = calls p ++ [ClearInterval (intervalId p)]
         ++ (if hidden p then []
             else [ApiGet (unpatrolled_request site prefs)])
  /\ timers p2 = timers p1
  /\ userjs_rcp p2 = userjs_rcp p
  /\ hidden p2 = hidden p.
Proof.
  intros Hp Hn id delay p1 p2.
  assert (Hp1 : getPreferences site JUndefined p1 = (Normal prefs, p1))
    by (by eapply getPreferences_same_store).
  assert (E2 : populateList site false p1 = (Normal tt, p2)
               /\ handles p2 = handles p
               /\ calls p2
                  = calls p ++ [ClearInterval (intervalId p)]
                      ++ (if hidden p then []
                          else [ApiGet (unpatrolled_request site prefs)])
               /\ timers p2 = timers p1
               /\ userjs_rcp p2 = userjs_rcp p
               /\ hidden p2 = hidden p).
  { subst p2. unfold exec. destruct (hidden p) eqn:Hh.
    - by rewrite populateList_hidden.
    - rewrite (populateList_visible _ _ _ prefs) by done. simpl.
      by rewrite <-app_assoc. }
  destruct E2 as (E2 & Hh2 & Hc2 & Ht2 & Hs2 & Hv2).
  split; [|done].
  assert (Hp2 : getPreferences site JUndefined p2 = (Normal prefs, p2))
    by (by eapply getPreferences_same_store).
  assert (Hf2 : frequency_ms site p2 = (Normal delay, p2)).
  { by rewrite (frequency_ms_eq _ _ prefs), (js_mul_frequency _ n). }
  unfold refreshList. rewrite bind_gets.
  rewrite (bind_normal _ _ p tt p1) by done.
  rewrite (bind_normal _ _ p1 tt p2) by done.
  rewrite (bind_normal _ _ p2 delay p2) by done.
  unfold bind, setInterval, modify. by rewrite Hh2.
Qed.

(** [refreshList] on a page with at most one timer: the page it leaves. *)
Lemma refreshList_rearms (site : Site) (p : page)
    (prefs : gmap (list N) jsval) (n : number) :
  one_timer p ->
  getPreferences site JUndefined p = (Normal prefs, p) ->
  ToNumber (get_prop prefs (js "frequency")) = Normal n ->
  let id := S (handles p) in
  let delay := num_mul n (Int 1000) in
  let q := exec (refreshList site) p in
  refreshList site p = (Normal tt, q)
  /\ calls q
     = calls p ++ [ClearInterval (intervalId p)]
         ++ (if hidden p then []
             else [ApiGet (unpatrolled_request site prefs)])
         ++ [SetInterval id delay]
  /\ timers q = {[ id := delay ]}
  /\ intervalId q = Some id
  /\ handles q = id
  /\ one_timer q
  /\ userjs_rcp q = userjs_rcp p
  /\ hidden q = hidden p
  /\ now q = now p
  /\ lastCheckedTime q = (if hidden p then lastCheckedTime p else now p)
  /\ portlet q = portlet p.
Proof.
  intros Hone Hp Hn id delay q.
  destruct (refreshList_eq site p prefs n Hp Hn)
    as (E & Hc & Ht & Hs & Hh).
  rewrite (clearInterval_disarms p Hone) in Ht.
  set (p2 := exec (populateList site false)
               (exec (clearInterval (intervalId p)) p)) in *.
  assert (Hrest : now p2 = now p
                  /\ lastCheckedTime p2
                     = (if hidden p then lastCheckedTime p else now p)
                  /\ portlet p2 = portlet p).
  { subst p2. unfold exec at 1 3 5. destruct (hidden p) eqn:Hhid.
    - by rewrite populateList_hidden.
    - rewrite (populateList_visible _ _ _ prefs); [done|done|].
      by eapply getPreferences_same_store. }
  destruct Hrest as (Hnow & Hlast & Hportlet).
  assert (Hq : q = set_intervalId id
                     (record_call (SetInterval id delay)
                        (set_timers (<[id:=delay]> (timers p2)) id p2)))
    by (subst q; unfold exec; by rewrite E).
  clearbody p2 q. subst q.
  cbn [snd calls timers intervalId handles userjs_rcp hidden now
       lastCheckedTime portlet set_intervalId record_call set_timers].
  rewrite Hc, Ht, insert_empty, <-!app_assoc.
  split; [by rewrite E, Ht, insert_empty|].
  repeat split; try done.
  by apply (one_timer_single _ id delay).
Qed.



(** ** The preferences *)

Lemma Object_assign_lookup (target : gmap (list N) jsval) source k :
  k <> js "__proto__" ->
  Object_assign target source !! k
  = match own_enumerable source !! k with
    | Some v => Some v
    | None => target !! k
    end.
Proof.
  intros Hk. unfold Object_assign.
  rewrite lookup_union, lookup_delete_ne by done.
  destruct (own_enumerable source !! k), (target !! k); done.
Qed.

Lemma Object_assign_empty (target : gmap (list N) jsval) :
  Object_assign target (JObj ∅) = target.
Proof.
  unfold Object_assign. simpl. by rewrite delete_empty, (left_id_L ∅ (∪)).
Qed.

Lemma Object_assign_default (target : gmap (list N) jsval) newPrefs :
  Object_assign target
    (match newPrefs with JUndefined => JObj ∅ | _ => newPrefs end)
  = Object_assign target newPrefs.
Proof. by destruct newPrefs. Qed.

(** The preferences are the three layers, when the option parses. *)
Lemma getPreferences_eq site newPrefs p parsed :
  parse_userjs_rcp (userjs_rcp p) = Normal parsed ->
  getPreferences site newPrefs p
  = (Normal
       (Object_assign
          (Object_assign
             (Object_assign ∅ (get_prop (getConf site) (js "defaultPrefs")))
             (if truthy parsed then parsed else JObj ∅))
          newPrefs), p).
Proof.
  intros H. unfold getPreferences. rewrite bind_gets.
  rewrite (bind_normal _ _ p parsed p) by (unfold lift; by rewrite H).
  by rewrite Object_assign_default.
Qed.

Lemma getPreferences_throw site newPrefs p e :
  parse_userjs_rcp (userjs_rcp p) = Throw e ->
  getPreferences site newPrefs p = (Throw e, p).
Proof.
  intros H. unfold getPreferences. rewrite bind_gets.
  unfold bind, lift. by rewrite H.
Qed.

(** C2, as the code has it: resolving the preferences throws a
    SyntaxError when the option holds a text that is not valid JSON.  When
    the option is not set it counts as no settings of the user, and the
    result is the defaults of the site overlaid with the override; when it
    holds valid JSON, or what [setPreferences] wrote, the preferences are
    returned.  The page is never changed. *)
Theorem getPreferences_throws_on_malformed (site : Site) (newPrefs : jsval)
    (p : page) :
  (userjs_rcp p = None ->
     getPreferences site newPrefs p
     = (Normal
          (Object_assign
             (Object_assign ∅ (get_prop (getConf site) (js "defaultPrefs")))
             newPrefs), p))
  /\ (forall s e,
        userjs_rcp p = Some (Raw s) -> JSON_parse s = Throw e ->
        getPreferences site newPrefs p = (Throw SyntaxError, p))
  /\ (forall s v,
        userjs_rcp p = Some (Raw s) -> JSON_parse s = Normal v ->
        exists prefs, getPreferences site newPrefs p = (Normal prefs, p))
  /\ (forall o,
        userjs_rcp p = Some (Stringified o) ->
        exists prefs, getPreferences site newPrefs p = (Normal prefs, p)).
Proof.
  split; [|split; [|split]].
  - intros H.
    rewrite (getPreferences_eq _ _ _ JNull) by (by rewrite H).
    simpl. by rewrite Object_assign_empty.
  - intros s e H He. apply getPreferences_throw. rewrite H. simpl.
    by rewrite He, (JSON_parse_error _ _ He).
  - intros s v H Hv. eexists. apply (getPreferences_eq _ _ _ v).
    by rewrite H.
  - intros o H. eexists. eapply getPreferences_eq. by rewrite H.
Qed.

(** C3: when the option parses, every field of the preferences comes
    from the override if the override has it, else from the settings of
    the user if they have it, else from the defaults of the site; and
    with defaults that have the six fields, the result has each of them. *)
Theorem getPreferences_layers (site : Site)
    (override : gmap (list N) jsval) (parsed : jsval) (p : page) :
  let persisted :=
    own_enumerable (if truthy parsed then parsed else JObj ∅) in
  let defaults :=
    own_enumerable (get_prop (getConf site) (js "defaultPrefs")) in
  parse_userjs_rcp (userjs_rcp p) = Normal parsed ->
  Forall (fun f => is_Some (defaults !! f)) preference_fields ->
  exists prefs,
    getPreferences site (JObj override) p = (Normal prefs, p)
    /\ forall f, f ∈ preference_fields ->
         is_Some (prefs !! f)
         /\ prefs !! f
            = match override !! f with
              | Some v => Some v
              | None =>
                  match persisted !! f with
                  | Some v => Some v
                  | None => defaults !! f
                  end
              end.
Proof.
  intros persisted defaults Hparse Hdef.
  rewrite Forall_forall in Hdef.
  eexists. split; [by apply getPreferences_eq|].
  intros f Hf.
  assert (Hproto : f <> js "__proto__").
  { intros ->. by not_elem_of_literals Hf. }
  rewrite !Object_assign_lookup by done.
  rewrite lookup_empty. cbn [own_enumerable]. fold persisted defaults.
  destruct (Hdef f Hf) as [v Hv]. rewrite Hv.
  by destruct (override !! f), (persisted !! f).
Qed.

(** ** The options dialog *)

Lemma key_newOnly_ne k : bool_decide (k = js "newOnly") = false ->
  k <> js "newOnly".
Proof. by intros H%bool_decide_eq_false. Qed.

Lemma dialog_handler_newOnly d e :
  newPrefs (dialog_handler d e) !! js "newOnly"
  = match e with
    | CheckboxChange true => Some (JBool true)
    | _ => newPrefs d !! js "newOnly"
    end.
Proof.
  destruct e as [data []|data []|data []|[]|value|value]; simpl;
    try done;
    try destruct (between _ _ _); simpl; try done;
    try (by apply lookup_insert_eq);
    by apply lookup_insert_ne, key_newOnly_ne.
Qed.

Lemma dialog_newOnly d0 es :
  newPrefs d0 !! js "newOnly" = None ->
  let d := foldl dialog_handler d0 es in
  newPrefs d !! js "newOnly" = None
  \/ newPrefs d !! js "newOnly" = Some (JBool true).
Proof.
  intros H0.
  assert (Hinv : newPrefs d0 !! js "newOnly" = None
                 \/ newPrefs d0 !! js "newOnly" = Some (JBool true))
    by (by left).
  clear H0. revert d0 Hinv.
  induction es as [|e es IH]; intros d0 Hinv; [done|].
  simpl. apply IH. rewrite dialog_handler_newOnly.
  destruct e as [| | |[]| |]; auto.
Qed.

Lemma setPreferences_eq options p :
  setPreferences options p
  = (Normal tt,
     record_call (ApiPostOptions (Stringified options))
       (set_userjs_rcp (Stringified options) p)).
Proof. done. Qed.

(** C10: the patch of the dialog holds [newOnly] only as [true]: the
    handler of the box records the field when the box becomes checked and
    does nothing when it becomes unchecked.  So when [newOnly = true] is
    stored, a save writes [newOnly = true] again, whatever was done in the
    dialog and whether the box is checked or not; the reset writes the
    empty object, after which [newOnly] is the default of the site,
    [false] unless the site configures it. *)
Theorem dialog_newOnly_only_true (site : Site)
    (persisted : gmap (list N) jsval) (p : page) :
  parse_userjs_rcp (userjs_rcp p) = Normal (JObj persisted) ->
  persisted !! js "newOnly" = Some (JBool true) ->
  exists d0,
    initialize site p = (Normal d0, p)
    /\ newPrefs d0 = ∅
    /\ checkbox d0 = true
    /\ forall es : list dialog_event,
         let d := foldl dialog_handler d0 es in
         (newPrefs d !! js "newOnly" = None
          \/ newPrefs d !! js "newOnly" = Some (JBool true))
         /\ newPrefs (dialog_handler d (CheckboxChange false)) = newPrefs d
         /\ (exists options,
               getActionProcess site d (js "save") p
               = (Normal tt,
                  record_call (ApiPostOptions (Stringified options))
                    (set_userjs_rcp (Stringified options) p))
               /\ options !! js "newOnly" = Some (JBool true))
         /\ (let reset := exec (getActionProcess site d (js "reset")) p in
             userjs_rcp reset = Some (Stringified ∅)
             /\ exists prefs,
                  getPreferences site JUndefined reset = (Normal prefs, reset)
                  /\ prefs !! js "newOnly"
                     = own_enumerable
                         (get_prop (getConf site) (js "defaultPrefs"))
                         !! js "newOnly"
                  /\ (rcp_config site = JObj ∅ ->
                      prefs !! js "newOnly" = Some (JBool false))).
Proof.
  intros Hparse Htrue.
  assert (Hkey : js "newOnly" <> js "__proto__")
    by (intros H; vm_compute in H; discriminate H).
  eexists. split.
  { unfold initialize.
    rewrite (bind_normal _ _ p _ p (getPreferences_eq _ _ _ _ Hparse)).
    reflexivity. }
  split; [done|]. split.
  { simpl. unfold get_prop.
    rewrite !Object_assign_lookup by done. simpl. by rewrite Htrue. }
  intros es d.
  assert (Hd : newPrefs d !! js "newOnly" = None
               \/ newPrefs d !! js "newOnly" = Some (JBool true))
    by (by apply dialog_newOnly).
  split; [exact Hd|]. split; [done|]. split.
  - eexists. split.
    + unfold getActionProcess.
      change (bool_decide (js "save" = js "save")) with true.
      change (bool_decide (js "save" = js "reset")) with false.
      cbn [orb]. cbv iota.
      rewrite (bind_normal _ _ p _ p (getPreferences_eq _ _ _ _ Hparse)).
      apply setPreferences_eq.
    + rewrite !Object_assign_lookup by done. simpl.
      destruct Hd as [-> | ->]; [|done]. by rewrite Htrue.
  - assert (Hreset :
      getActionProcess site d (js "reset") p
      = (Normal tt,
         record_call (ApiPostOptions (Stringified ∅))
           (set_userjs_rcp (Stringified ∅) p))).
    { unfold getActionProcess.
      change (bool_decide (js "reset" = js "save")) with false.
      change (bool_decide (js "reset" = js "reset")) with true.
      cbn [orb]. cbv iota.
      rewrite (bind_normal _ _ p _ p (getPreferences_eq _ _ _ _ Hparse)).
      apply setPreferences_eq. }
    unfold exec. rewrite Hreset. simpl. split; [done|].
    eexists. split.
    { apply (getPreferences_eq _ _ _ (JObj ∅)). simpl.
      by rewrite omap_empty. }
    rewrite !Object_assign_lookup by done. simpl.
    rewrite !lookup_empty.
    assert (Hopt : forall o : option jsval,
              match o with Some v => Some v | None => None end = o)
      by (by intros []).
    rewrite Hopt. split; [done|].
    intros Hconf. unfold getConf. rewrite Hconf. simpl.
    by rewrite Object_assign_empty.
Qed.

(** ** The properties at work on sample pages *)

Lemma getPreferences_never_throws_counterexample :
  getPreferences plain_site JUndefined malformed_page
  = (Throw SyntaxError, malformed_page).
Proof. vm_compute. reflexivity. Qed.

Lemma getPreferences_throws_on_malformed_witness :
  getPreferences plain_site JUndefined (start_page None false 0)
  = (Normal
       (Object_assign
          (Object_assign ∅
             (get_prop (getConf plain_site) (js "defaultPrefs")))
          JUndefined),
     start_page None false 0)
  /\ getPreferences plain_site JUndefined malformed_page
     = (Throw SyntaxError, malformed_page)
  /\ exists prefs,
       getPreferences plain_site JUndefined newOnly_page
       = (Normal prefs, newOnly_page).
Proof.
  split; [|split].
  - apply (getPreferences_throws_on_malformed
             plain_site JUndefined (start_page None false 0)).
    reflexivity.
  - apply (proj1 (proj2 (getPreferences_throws_on_malformed
                           plain_site JUndefined malformed_page))
             (js "{") SyntaxError); [reflexivity|].
    vm_compute. reflexivity.
  - apply (proj1 (proj2 (proj2 (getPreferences_throws_on_malformed
                                  plain_site JUndefined newOnly_page)))
             (json_text "{'newOnly':true,'quantity':5}")
             (JObj (<[js "quantity" := JNum (Int 5)]>
                      {[js "newOnly" := JBool true]})));
      [reflexivity|].
    vm_compute. reflexivity.
Defined.

Lemma getPreferences_layers_witness :
  exists prefs,
    getPreferences plain_site
      (JObj {[js "origin" := JStr (js "watchlist")]}) newOnly_page
    = (Normal prefs, newOnly_page)
    /\ prefs !! js "origin" = Some (JStr (js "watchlist"))
    /\ prefs !! js "quantity" = Some (JNum (Int 5))
    /\ prefs !! js "frequency" = Some (JNum (Int 60)).
Proof.
  destruct (getPreferences_layers plain_site
              {[js "origin" := JStr (js "watchlist")]}
              (JObj (<[js "quantity" := JNum (Int 5)]>
                       {[js "newOnly" := JBool true]}))
              newOnly_page)
    as (prefs & Hprefs & Hfields).
  - vm_compute. reflexivity.
  - apply (bool_decide_unpack _). vm_compute. exact I.
  - exists prefs. split; [exact Hprefs|].
    split; [|split].
    + destruct (Hfields (js "origin")) as [_ ->]; [|reflexivity].
      apply (bool_decide_unpack _). vm_compute. exact I.
    + destruct (Hfields (js "quantity")) as [_ ->]; [|reflexivity].
      apply (bool_decide_unpack _). vm_compute. exact I.
    + destruct (Hfields (js "frequency")) as [_ ->]; [|reflexivity].
      apply (bool_decide_unpack _). vm_compute. exact I.
Defined.

Lemma getUnpatrolled_noncontent_witness :
  exists l : list Z,
    unpatrolled_request plain_site
      (<[js "namespace" := JStr (js "noncontent")]> defaultPrefs)
      !! js "rcnamespace"
    = Some (namespace_array l)
    /\ NoDup l.
Proof.
  destruct (getUnpatrolled_noncontent plain_site
              (<[js "namespace" := JStr (js "noncontent")]> defaultPrefs)
              running_page)
    as (l & Hl & Hnd & _).
  - reflexivity.
  - exists l. split; [exact Hl|exact Hnd].
Defined.

Lemma populateList_done_empty_witness :
  exists p',
    populateList_done plain_site defaultPrefs false
      {[js "recentchanges" := []]} running_page
    = (Normal tt, p')
    /\ portlet p' = [EmptyNotice (js "userjs-rcp-portlet-empty")].
Proof.
  destruct (populateList_done_empty plain_site defaultPrefs false
              {[js "recentchanges" := []]} running_page)
    as (p' & Hp' & Hportlet & _).
  - reflexivity.
  - exists p'. split; [exact Hp'|exact Hportlet].
Defined.

Lemma getApiListType_watchlist_iff_witness :
  getApiListType (JStr (js "watchlist"))
  = {| list_name := js "watchlist"; prefix := js "wl" |}
  /\ getApiListType (JStr (js "Watchlist"))
     = {| list_name := js "recentchanges"; prefix := js "rc" |}.
Proof.
  split.
  - apply (proj1 (getApiListType_watchlist_iff (JStr (js "watchlist")))).
    reflexivity.
  - apply (proj2 (getApiListType_watchlist_iff (JStr (js "Watchlist")))).
    intros H. vm_compute in H. discriminate H.
Defined.




Lemma dialog_newOnly_only_true_witness :
  exists d0,
    initialize plain_site newOnly_page = (Normal d0, newOnly_page)
    /\ checkbox d0 = true
    /\ exists options,
         getActionProcess plain_site
           (dialog_handler d0 (CheckboxChange false)) (js "save")
           newOnly_page
         = (Normal tt,
            record_call (ApiPostOptions (Stringified options))
              (set_userjs_rcp (Stringified options) newOnly_page))
         /\ options !! js "newOnly" = Some (JBool true).
Proof.
  destruct (dialog_newOnly_only_true plain_site
              (<[js "quantity" := JNum (Int 5)]>
                 {[js "newOnly" := JBool true]})
              newOnly_page)
    as (d0 & Hinit & _ & Hbox & Hes).
  - vm_compute. reflexivity.
  - reflexivity.
  - exists d0. split; [exact Hinit|]. split; [exact Hbox|].
    destruct (Hes [CheckboxChange false]) as (_ & _ & Hsave & _).
    exact Hsave.
Defined.

(** ** The messages *)

(** Below the index of the first language that has the message, the loop
    leaves the message as it found it. *)
Lemma messages_loop_miss (translations : gmap (list N) jsval)
    (chain : list (list N)) (k : list N) (n : nat)
    (ret : gmap (list N) jsval) :
  k <> js "__proto__" ->
  n <= length chain ->
  (forall j lang t,
     j < n -> chain !! j = Some lang -> translations !! lang = Some t ->
     own_enumerable t !! k = None) ->
  messages_loop translations chain n ret !! k = ret !! k.
Proof.
  intros Hk. revert ret.
  induction n as [|i IH]; intros ret Hn Hmiss; [done|].
  simpl. rewrite IH; [|lia|intros j lang t Hj; apply Hmiss; lia].
  destruct (lookup_lt_is_Some_2 chain i) as [lang Hlang]; [lia|].
  rewrite Hlang. simpl.
  destruct (translations !! lang) as [t|] eqn:Ht; [|done].
  rewrite Object_assign_lookup by done.
  by rewrite (Hmiss i lang t) by (done || lia).
Qed.

Lemma messages_loop_hit (translations : gmap (list N) jsval)
    (chain : list (list N)) (k : list N) (n : nat)
    (ret : gmap (list N) jsval) (i : nat) (lang : list N) (t v : jsval) :
  k <> js "__proto__" ->
  n <= length chain -> i < n ->
  chain !! i = Some lang -> translations !! lang = Some t ->
  own_enumerable t !! k = Some v ->
  (forall j lang' t',
     j < i -> chain !! j = Some lang' -> translations !! lang' = Some t' ->
     own_enumerable t' !! k = None) ->
  messages_loop translations chain n ret !! k = Some v.
Proof.
  intros Hk. revert ret.
  induction n as [|m IH]; intros ret Hn Hi Hlang Ht Hv Hmiss; [lia|].
  simpl. destruct (decide (i = m)) as [->|Hne].
  - rewrite messages_loop_miss; [|done|lia|done].
    rewrite Hlang. simpl. rewrite Ht.
    rewrite Object_assign_lookup by done. by rewrite Hv.
  - apply IH; [lia|lia|done..].
Qed.

(** X1: the messages follow the fallback chain: a message has the text
    of the first language of the chain that has translations with that
    message; languages without translations are passed over, and a message
    that no language of the chain has is not set. *)
Theorem messages_first_language (translations : gmap (list N) jsval)
    (chain : list (list N)) (k : list N) :
  k <> js "__proto__" ->
  (forall i lang t v,
     chain !! i = Some lang -> translations !! lang = Some t ->
     own_enumerable t !! k = Some v ->
     (forall j lang' t',
        j < i -> chain !! j = Some lang' ->
        translations !! lang' = Some t' ->
        own_enumerable t' !! k = None) ->
     messages translations chain !! k = Some v)
  /\ ((forall lang t,
         lang ∈ chain -> translations !! lang = Some t ->
         own_enumerable t !! k = None) ->
      messages translations chain !! k = None).
Proof.
  intros Hk. split.
  - intros i lang t v Hlang Ht Hv Hmiss. unfold messages.
    apply (messages_loop_hit _ _ _ _ _ i lang t v); try done.
    by apply lookup_lt_Some in Hlang.
  - intros Hnone. unfold messages.
    rewrite messages_loop_miss; [done|done|done|].
    intros j lang t _ Hlang Ht. apply (Hnone lang t); [|done].
    by apply list_elem_of_lookup_2 in Hlang.
Qed.

Lemma messages_first_language_witness :
  messages sample_translations [js "nn"; js "nb"; js "en"]
    !! js "userjs-rcp-options" = Some (JStr (js "Innstillinger"))
  /\ messages sample_translations [js "nn"; js "nb"; js "en"]
       !! js "userjs-rcp-error" = Some (JStr (js "Error"))
  /\ messages sample_translations [js "nn"; js "nb"; js "en"]
       !! js "userjs-rcp-portlet-title" = None.
Proof.
  split; [|split].
  - apply (proj1 (messages_first_language sample_translations
                    [js "nn"; js "nb"; js "en"] (js "userjs-rcp-options")
                    ltac:(intros H; vm_compute in H; discriminate H))
             1 (js "nb")
             (JObj (object_literal
                      [(js "userjs-rcp-options",
                        JStr (js "Innstillinger"))]))
             (JStr (js "Innstillinger")));
      [reflexivity|reflexivity|reflexivity|].
    intros [|j] lang' t' Hj Hlang Ht; [|lia].
    injection Hlang as <-. vm_compute in Ht. discriminate Ht.
  - apply (proj1 (messages_first_language sample_translations
                    [js "nn"; js "nb"; js "en"] (js "userjs-rcp-error")
                    ltac:(intros H; vm_compute in H; discriminate H))
             2 (js "en")
             (JObj (object_literal
                      [ (js "userjs-rcp-options", JStr (js "Options"));
                        (js "userjs-rcp-error", JStr (js "Error")) ]))
             (JStr (js "Error")));
      [reflexivity|reflexivity|reflexivity|].
    intros [|[|j]] lang' t' Hj Hlang Ht; [| |lia].
    + injection Hlang as <-. vm_compute in Ht. discriminate Ht.
    + injection Hlang as <-. vm_compute in Ht. injection Ht as <-.
      reflexivity.
  - apply (proj2 (messages_first_language sample_translations
                    [js "nn"; js "nb"; js "en"]
                    (js "userjs-rcp-portlet-title")
                    ltac:(intros H; vm_compute in H; discriminate H))).
    intros lang t Hlang Ht.
    repeat (apply elem_of_cons in Hlang as [->|Hlang]);
      [| | |by apply elem_of_nil in Hlang];
      vm_compute in Ht; try discriminate Ht;
      injection Ht as <-; reflexivity.
Defined.

(** ** More on the preferences *)

Lemma Object_assign_no_own (target : gmap (list N) jsval) (source : jsval) :
  own_enumerable source = ∅ -> Object_assign target source = target.
Proof.
  intros H. unfold Object_assign.
  by rewrite H, delete_empty, (left_id_L ∅ (∪)).
Qed.

(** The keys of array indices are strings of decimal digits. *)
Lemma index_keys_lookup {A} (l : list A) (k : list N) :
  is_Some (index_keys l !! k) ->
  Forall (fun c => is_digit c = true) k.
Proof.
  unfold index_keys. intros [x Hx].
  apply elem_of_list_to_map_2 in Hx.
  apply list_elem_of_lookup in Hx as [i Hi].
  rewrite list_lookup_imap in Hi.
  destruct (l !! i); simpl in Hi; [|done].
  injection Hi as <- _.
  apply Z_toString_digits. lia.
Qed.

Lemma preference_field_not_index {A} (l : list A) (f : list N) :
  f ∈ preference_fields -> index_keys l !! f = None.
Proof.
  intros Hf. destruct (index_keys l !! f) eqn:E; [|done].
  pose proof (index_keys_lookup l f (mk_is_Some _ _ E)) as Hd.
  unfold preference_fields in Hf.
  repeat (apply elem_of_cons in Hf as [->|Hf]);
    [..|by apply elem_of_nil in Hf];
    apply Forall_cons_1 in Hd as [Hd _]; vm_compute in Hd; discriminate Hd.
Qed.

Lemma preference_field_not_proto (f : list N) :
  f ∈ preference_fields -> f <> js "__proto__".
Proof. intros Hf ->. by not_elem_of_literals Hf. Qed.

(** X2: a stored option that is valid JSON but not an object does not
    touch the six fields of the preferences: each comes from the override
    if the override has it, else from the defaults of the site.  When the
    option is [null], a boolean or a number, the preferences are those of
    a user without stored option. *)
Theorem getPreferences_option_not_object (site : Site)
    (override : gmap (list N) jsval) (parsed : jsval) (p : page) :
  parse_userjs_rcp (userjs_rcp p) = Normal parsed ->
  (forall o, parsed <> JObj o) ->
  exists prefs,
    getPreferences site (JObj override) p = (Normal prefs, p)
    /\ (forall f, f ∈ preference_fields ->
          prefs !! f
          = match override !! f with
            | Some v => Some v
            | None =>
                own_enumerable (get_prop (getConf site) (js "defaultPrefs"))
                  !! f
            end)
    /\ ((forall s, parsed <> JStr s) -> (forall l, parsed <> JArr l) ->
        prefs
        = Object_assign
            (Object_assign ∅ (get_prop (getConf site) (js "defaultPrefs")))
            (JObj override)).
Proof.
  intros Hparse Hobj.
  eexists. split; [by apply getPreferences_eq|]. split.
  - intros f Hf.
    pose proof (preference_field_not_proto f Hf) as Hproto.
    rewrite !Object_assign_lookup by done.
    rewrite lookup_empty. cbn [own_enumerable].
    assert (own_enumerable (if truthy parsed then parsed else JObj ∅) !! f
            = None) as ->.
    { destruct parsed as [| |b|n|s|l|o]; try by destruct (truthy _).
      - destruct (truthy _); [|done]. by apply preference_field_not_index.
      - by apply preference_field_not_index.
      - by destruct (Hobj o). }
    destruct (override !! f); [done|].
    match goal with |- match ?x with _ => _ end = _ => by destruct x end.
  - intros Hstr Harr. f_equal.
    apply Object_assign_no_own.
    destruct parsed as [| |b|n|s|l|o]; try by destruct (truthy _).
    + by destruct (Hstr s).
    + by destruct (Harr l).
    + by destruct (Hobj o).
Qed.

Lemma getPreferences_option_not_object_witness :
  exists prefs,
    getPreferences plain_site (JObj ∅)
      (start_page (Some (Raw (js "[1, 2]"))) false 0)
    = (Normal prefs, start_page (Some (Raw (js "[1, 2]"))) false 0)
    /\ prefs !! js "quantity" = Some (JNum (Int 10)).
Proof.
  destruct (getPreferences_option_not_object plain_site ∅
              (JArr [JNum (Int 1); JNum (Int 2)])
              (start_page (Some (Raw (js "[1, 2]"))) false 0))
    as (prefs & Hprefs & Hfields & _).
  - vm_compute. reflexivity.
  - intros o H. discriminate H.
  - exists prefs. split; [exact Hprefs|].
    rewrite (Hfields (js "quantity")); [reflexivity|].
    apply (bool_decide_unpack _). vm_compute. exact I.
Defined.

Lemma getConf_config_property (site : Site) (c : gmap (list N) jsval)
    (k : list N) (v : jsval) :
  rcp_config site = JObj c -> c !! k = Some v -> k <> js "__proto__" ->
  get_prop (getConf site) k = v.
Proof.
  intros Hc Hk Hproto. unfold get_prop, getConf. rewrite Hc. simpl.
  rewrite Object_assign_lookup by done. simpl. by rewrite Hk.
Qed.

(** X3: when the configuration of the site has a [defaultPrefs] of its
    own, it stands in place of the built-in defaults as a whole: a field
    comes from the override, else from the stored option, else from the
    [defaultPrefs] of the configuration, and a field that none of them has
    is [undefined], whatever the built-in default is.  Without
    [frequency] the delay of the timer is [NaN].  Stated for layers that
    do not replace the prototype of the preferences (none has an own
    property [__proto__] that holds an object), so that a field the
    preferences do not own reads as [undefined]. *)
Theorem getConf_defaultPrefs_replaced (site : Site)
    (c override : gmap (list N) jsval) (dp parsed : jsval) (p : page) :
  let persisted :=
    own_enumerable (if truthy parsed then parsed else JObj ∅) in
  rcp_config site = JObj c ->
  c !! js "defaultPrefs" = Some dp ->
  parse_userjs_rcp (userjs_rcp p) = Normal parsed ->
  sets_prototype dp = false ->
  sets_prototype (if truthy parsed then parsed else JObj ∅) = false ->
  sets_prototype (JObj override) = false ->
  exists prefs,
    getPreferences site (JObj override) p = (Normal prefs, p)
    /\ (forall f, f <> js "__proto__" ->
          prefs !! f
          = match override !! f with
            | Some v => Some v
            | None =>
                match persisted !! f with
                | Some v => Some v
                | None => own_enumerable dp !! f
                end
            end)
    /\ (own_enumerable dp !! js "frequency" = None ->
        persisted !! js "frequency" = None ->
        frequency_ms site p = (Normal NaN, p)).
Proof.
  intros persisted Hc Hdp Hparse _ _ _.
  assert (Hconf : get_prop (getConf site) (js "defaultPrefs") = dp).
  { apply (getConf_config_property site c); [done|done|].
    intros H. vm_compute in H. discriminate H. }
  eexists. split; [by apply getPreferences_eq|]. split.
  - intros f Hproto. rewrite !Object_assign_lookup by done.
    rewrite lookup_empty, Hconf. cbn [own_enumerable]. fold persisted.
    by destruct (override !! f), (persisted !! f), (own_enumerable dp !! f).
  - intros Hnone Hpers.
    rewrite (frequency_ms_eq site p _ (getPreferences_eq _ _ _ _ Hparse)).
    rewrite Hconf. unfold get_prop.
    rewrite !Object_assign_lookup
      by (intros H; vm_compute in H; discriminate H).
    rewrite lookup_empty. fold persisted.
    rewrite Hpers, Hnone. reflexivity.
Qed.

Lemma getConf_defaultPrefs_replaced_witness :
  exists prefs,
    getPreferences partial_site (JObj ∅) (start_page None false 0)
    = (Normal prefs, start_page None false 0)
    /\ prefs !! js "quantity" = Some (JNum (Int 15))
    /\ prefs !! js "origin" = None
    /\ frequency_ms partial_site (start_page None false 0)
       = (Normal NaN, start_page None false 0).
Proof.
  destruct (getConf_defaultPrefs_replaced partial_site
              {[ js "defaultPrefs" :=
                   JObj {[ js "quantity" := JNum (Int 15) ]} ]}
              ∅ (JObj {[ js "quantity" := JNum (Int 15) ]}) JNull
              (start_page None false 0))
    as (prefs & Hprefs & Hfields & Hnan).
  - reflexivity.
  - reflexivity.
  - vm_compute. reflexivity.
  - reflexivity.
  - reflexivity.
  - reflexivity.
  - exists prefs. split; [exact Hprefs|].
    split; [|split].
    + rewrite (Hfields (js "quantity")); [reflexivity|].
      intros H. vm_compute in H. discriminate H.
    + rewrite (Hfields (js "origin")); [reflexivity|].
      intros H. vm_compute in H. discriminate H.
    + apply Hnan; reflexivity.
Defined.

Lemma getActionProcess_save (site : Site) (d : dialog) (p : page)
    (parsed : jsval) :
  parse_userjs_rcp (userjs_rcp p) = Normal parsed ->
  exists options,
    getPreferences site (JObj (newPrefs d)) p = (Normal options, p)
    /\ getActionProcess site d (js "save") p
       = (Normal tt,
          record_call (ApiPostOptions (Stringified options))
            (set_userjs_rcp (Stringified options) p)).
Proof.
  intros Hparse. eexists. split; [by apply getPreferences_eq|].
  unfold getActionProcess.
  change (bool_decide (js "save" = js "save")) with true.
  change (bool_decide (js "save" = js "reset")) with false.
  cbn [orb]. cbv iota.
  rewrite (bind_normal _ _ p _ p (getPreferences_eq _ _ _ _ Hparse)).
  apply setPreferences_eq.
Qed.

Lemma getActionProcess_reset (site : Site) (d : dialog) (p : page)
    (parsed : jsval) :
  parse_userjs_rcp (userjs_rcp p) = Normal parsed ->
  getActionProcess site d (js "reset") p
  = (Normal tt,
     record_call (ApiPostOptions (Stringified ∅))
       (set_userjs_rcp (Stringified ∅) p)).
Proof.
  intros Hparse. unfold getActionProcess.
  change (bool_decide (js "reset" = js "save")) with false.
  change (bool_decide (js "reset" = js "reset")) with true.
  cbn [orb]. cbv iota.
  rewrite (bind_normal _ _ p _ p (getPreferences_eq _ _ _ _ Hparse)).
  apply setPreferences_eq.
Qed.

(** X4: after a reset the preferences are the defaults of the site and
    nothing else, whatever was stored before and whatever was changed in
    the dialog. *)
Theorem reset_restores_defaults (site : Site) (d : dialog) (p : page)
    (parsed : jsval) :
  parse_userjs_rcp (userjs_rcp p) = Normal parsed ->
  let p' := exec (getActionProcess site d (js "reset")) p in
  userjs_rcp p' = Some (Stringified ∅)
  /\ getPreferences site JUndefined p'
     = (Normal
          (Object_assign ∅ (get_prop (getConf site) (js "defaultPrefs"))),
        p').
Proof.
  intros Hparse p'. subst p'. unfold exec.
  rewrite (getActionProcess_reset _ _ _ _ Hparse). cbn [snd].
  split; [done|].
  rewrite (getPreferences_eq _ _ _ (JObj ∅))
    by (simpl; by rewrite omap_empty).
  cbn [truthy]. rewrite Object_assign_empty.
  by rewrite Object_assign_no_own.
Qed.

Lemma reset_restores_defaults_witness :
  getPreferences plain_site JUndefined
    (exec (getActionProcess plain_site
             {| newPrefs := {[ js "quantity" := JStr (js "7") ]};
                checkbox := true |} (js "reset")) newOnly_page)
  = (Normal defaultPrefs,
     exec (getActionProcess plain_site
             {| newPrefs := {[ js "quantity" := JStr (js "7") ]};
                checkbox := true |} (js "reset")) newOnly_page).
Proof.
  apply (reset_restores_defaults plain_site
           {| newPrefs := {[ js "quantity" := JStr (js "7") ]};
              checkbox := true |} newOnly_page
           (JObj (<[js "quantity" := JNum (Int 5)]>
                    {[js "newOnly" := JBool true]}))).
  vm_compute. reflexivity.
Defined.

Lemma json_roundtrip_scalar (v : jsval) :
  match v with
  | JNull | JBool _ | JStr _ | JNum (Fin _) => json_roundtrip v = v
  | _ => True
  end.
Proof. by destruct v as [| |b|[| | |q]|s|l|o]. Qed.



(** ** More on the options dialog *)

Lemma num_ge_fin (a : number) (lo : Z) :
  num_ge a (Int lo) = true ->
  a = PInf \/ exists q, a = Fin q /\ (inject_Z lo <= q)%Q.
Proof.
  destruct a as [| | |q]; try done; [by left|].
  unfold num_ge, num_compare, Int. intros H. right. exists q. split; [done|].
  apply Qle_alt. rewrite <-Qcompare_antisym.
  change (lo # 1)%Q with (inject_Z lo) in H.
  by destruct (q ?= inject_Z lo)%Q.
Qed.

Lemma num_le_fin (a : number) (hi : Z) :
  num_le a (Int hi) = true ->
  a = NInf \/ exists q, a = Fin q /\ (q <= inject_Z hi)%Q.
Proof.
  destruct a as [| | |q]; try done; [by left|].
  unfold num_le, num_compare, Int. intros H. right. exists q. split; [done|].
  apply Qle_alt.
  change (hi # 1)%Q with (inject_Z hi) in H.
  by destruct (q ?= inject_Z hi)%Q.
Qed.

(** What [value >= lo && value <= hi] lets through: the texts of finite
    numbers in the range. *)
Lemma between_range (value : list N) (lo hi : Z) :
  between value lo hi = true ->
  exists q, StringToNumber value = Fin q
            /\ (inject_Z lo <= q)%Q /\ (q <= inject_Z hi)%Q.
Proof.
  unfold between. intros [Hge Hle]%andb_true_iff.
  apply num_ge_fin in Hge as [Hinf|(q & Hq & Hlo)].
  { rewrite Hinf in Hle. discriminate Hle. }
  apply num_le_fin in Hle as [Hinf|(q' & Hq' & Hhi)]; [congruence|].
  exists q. split; [done|]. split; [done|]. congruence.
Qed.

(** A number that is held exactly and lies between two integers is an
    integer between them. *)
Lemma held_exactly_range (q : Q) (lo hi : Z) :
  held_exactly (Fin q) = true ->
  (inject_Z lo <= q)%Q -> (q <= inject_Z hi)%Q ->
  Fin q = Int (Qnum q) /\ (lo <= Qnum q <= hi)%Z.
Proof.
  intros H Hlo Hhi. unfold held_exactly, isSafeInteger in H.
  apply andb_true_iff in H as [Hden _]. apply Pos.eqb_eq in Hden.
  destruct q as [n d]; cbn [Qden Qnum] in *; subst d.
  split; [done|].
  split; rewrite Zle_Qle; [exact Hlo|exact Hhi].
Qed.

(** X6: whatever is done in the dialog, its patch holds only fields of
    the preferences, and only values the widgets let through: [quantity]
    as the text of a whole number from 1 to 20, [frequency] as the text of
    a whole number from 30 to 600, [newOnly] as [true], and [origin],
    [namespace] and [direction] as strings.  A value out of range is never
    recorded.  Stated for number inputs whose texts are held exactly:
    texts of safe integers and texts that are not finite numbers. *)
Theorem dialog_patch_in_range (d0 : dialog) (es : list dialog_event)
    (k : list N) (v : jsval) :
  newPrefs d0 = ∅ ->
  Forall (fun e => number_input_exact e = true) es ->
  newPrefs (foldl dialog_handler d0 es) !! k = Some v ->
  (k = js "quantity"
   /\ exists s z, v = JStr s /\ StringToNumber s = Int z
                  /\ (1 <= z <= 20)%Z)
  \/ (k = js "frequency"
      /\ exists s z, v = JStr s /\ StringToNumber s = Int z
                     /\ (30 <= z <= 600)%Z)
  \/ (k = js "newOnly" /\ v = JBool true)
  \/ (k ∈ [js "origin"; js "namespace"; js "direction"]
      /\ exists s, v = JStr s).
Proof.
  intros Hempty Hes.
  pose (ok := fun (k : list N) (v : jsval) =>
    (k = js "quantity"
     /\ exists s z, v = JStr s /\ StringToNumber s = Int z
                    /\ (1 <= z <= 20)%Z)
    \/ (k = js "frequency"
        /\ exists s z, v = JStr s /\ StringToNumber s = Int z
                       /\ (30 <= z <= 600)%Z)
    \/ (k = js "newOnly" /\ v = JBool true)
    \/ (k ∈ [js "origin"; js "namespace"; js "direction"]
        /\ exists s, v = JStr s)).
  change (newPrefs (foldl dialog_handler d0 es) !! k = Some v -> ok k v).
  assert (Hinv : forall k v, newPrefs d0 !! k = Some v -> ok k v).
  { intros k' v'. rewrite Hempty, lookup_empty. done. }
  clear Hempty. revert d0 Hinv k v.
  induction Hes as [|e es He _ IH]; intros d0 Hinv k v; [apply Hinv|].
  simpl. apply IH. clear k v. intros k v.
  assert (Hins : forall key val,
    ok key val -> <[key:=val]> (newPrefs d0) !! k = Some v -> ok k v).
  { intros key val Hok. rewrite lookup_insert.
    destruct (decide (key = k)) as [<-|Hne]; [by intros [= <-]|apply Hinv]. }
  destruct e as [data []|data []|data []|[]|value|value];
    cbn [dialog_handler newPrefs]; try apply Hinv.
  - apply Hins. do 3 right. split; [elem_of_literals|by eexists].
  - apply Hins. do 3 right. split; [elem_of_literals|by eexists].
  - apply Hins. do 3 right. split; [elem_of_literals|by eexists].
  - apply Hins. do 2 right. by left.
  - destruct (between value 1 20) eqn:Hb; cbn [newPrefs]; [|apply Hinv].
    apply Hins. left. split; [done|].
    apply between_range in Hb as (q & Hq & Hlo & Hhi).
    cbn [number_input_exact] in He. rewrite Hq in He.
    destruct (held_exactly_range q 1 20 He Hlo Hhi) as [Hz Hr].
    exists value, (Qnum q). by rewrite Hq, Hz.
  - destruct (between value 30 600) eqn:Hb; cbn [newPrefs]; [|apply Hinv].
    apply Hins. right. left. split; [done|].
    apply between_range in Hb as (q & Hq & Hlo & Hhi).
    cbn [number_input_exact] in He. rewrite Hq in He.
    destruct (held_exactly_range q 30 600 He Hlo Hhi) as [Hz Hr].
    exists value, (Qnum q). by rewrite Hq, Hz.
Qed.

Lemma dialog_patch_in_range_witness :
  exists s z,
    JStr (js "15") = JStr s /\ StringToNumber s = Int z
    /\ (1 <= z <= 20)%Z.
Proof.
  destruct (dialog_patch_in_range
              {| newPrefs := ∅; checkbox := false |}
              [QuantityChange (js "15"); QuantityChange (js "21");
               QuantityChange (js "many"); CheckboxChange true]
              (js "quantity") (JStr (js "15")))
    as [[_ H]|[[H _]|[[H _]|[H _]]]].
  - reflexivity.
  - repeat constructor.
  - vm_compute. reflexivity.
  - exact H.
  - vm_compute in H. discriminate H.
  - vm_compute in H. discriminate H.
  - exfalso. not_elem_of_literals H.
Defined.



(** X8: a save whose post succeeds closes the dialog and starts the
    polling afresh: when the frequency was changed in the dialog, the
    timer that is armed afterwards, the only one, has the new frequency
    as its delay, in milliseconds.  Stated for a frequency whose text is
    that of an integer, with a product with 1000 that is a safe
    integer. *)
Theorem save_rearms_at_new_frequency (site : Site) (d : dialog) (p : page)
    (parsed : jsval) (v : list N) (f : Z) :
  reachable site p ->
  parse_userjs_rcp (userjs_rcp p) = Normal parsed ->
  newPrefs d !! js "frequency" = Some (JStr v) ->
  StringToNumber v = Int f ->
  isSafeInteger (Int (f * 1000)) = true ->
  let p1 := exec (getActionProcess site d (js "save")) p in
  let p2 := exec (handle site PostDone) p1 in
  let delay := Int (f * 1000) in
  handle site PostDone p1 = (Normal tt, p2)
  /\ exists id,
       timers p2 = {[ id := delay ]}
       /\ intervalId p2 = Some id
       /\ exists options prefs',
            calls p2
            = calls p ++ [ApiPostOptions (Stringified options); DialogClose;
                          ClearInterval (intervalId p)]
                ++ (if hidden p then []
                    else [ApiGet (unpatrolled_request site prefs')])
                ++ [SetInterval id delay].
Proof.
  intros Hreach Hparse Hfreq Hf _ p1 p2 delay.
  pose proof (reachable_one_timer _ _ Hreach) as Hone.
  destruct (getActionProcess_save site d p parsed Hparse)
    as (options & Hopt & Hsave).
  assert (Hp1 : p1 = record_call (ApiPostOptions (Stringified options))
                       (set_userjs_rcp (Stringified options) p)).
  { subst p1. unfold exec. by rewrite Hsave. }
  set (q := record_call DialogClose p1).
  assert (Hkey : js "frequency" <> js "__proto__")
    by (intros H; vm_compute in H; discriminate H).
  assert (Hoptf : options !! js "frequency" = Some (JStr v)).
  { rewrite (getPreferences_eq _ _ _ _ Hparse) in Hopt.
    injection Hopt as <-.
    rewrite Object_assign_lookup by done. cbn [own_enumerable].
    by rewrite Hfreq. }
  assert (Hq : exists prefs',
            getPreferences site JUndefined q = (Normal prefs', q)
            /\ get_prop prefs' (js "frequency") = JStr v).
  { eexists. split.
    - apply getPreferences_eq. subst q. rewrite Hp1. reflexivity.
    - unfold get_prop. rewrite !Object_assign_lookup by done.
      cbn [json_roundtrip truthy own_enumerable].
      by rewrite lookup_omap, Hoptf. }
  destruct Hq as (prefs' & Hq & Hv).
  assert (Hoq : one_timer q).
  { intros id. subst q. rewrite Hp1. apply Hone. }
  destruct (refreshList_rearms site q prefs' (Int f) Hoq Hq)
    as (Hrefresh & Hcalls & Htimers & Hid & _).
  { rewrite Hv. cbn [ToNumber]. by rewrite Hf. }
  rewrite num_mul_int in Hcalls, Htimers. fold delay in Hcalls, Htimers.
  assert (Hdone : handle site PostDone p1 = refreshList site q).
  { unfold handle, try_catch.
    change (setPreferences_then site p1) with (refreshList site q).
    by rewrite Hrefresh. }
  assert (Hp2 : p2 = exec (refreshList site) q)
    by (subst p2; unfold exec; by rewrite Hdone).
  split; [by rewrite Hdone, Hrefresh, Hp2|].
  exists (S (handles q)). rewrite Hp2.
  split; [exact Htimers|]. split; [exact Hid|].
  exists options, prefs'.
  rewrite Hcalls. subst q. rewrite Hp1. simpl.
  by rewrite <-!app_assoc.
Qed.

Lemma save_rearms_at_new_frequency_witness :
  exists id,
    timers
      (exec (handle plain_site PostDone)
         (exec (getActionProcess plain_site
                  (dialog_handler {| newPrefs := ∅; checkbox := false |}
                     (FrequencyChange (js "120"))) (js "save"))
            running_page))
    = {[ id := Int 120000 ]}.
Proof.
  destruct (save_rearms_at_new_frequency plain_site
              (dialog_handler {| newPrefs := ∅; checkbox := false |}
                 (FrequencyChange (js "120")))
              running_page JNull (js "120") 120)
    as (_ & id & Htimers & _).
  - exists None, false, 0%Z, []. reflexivity.
  - vm_compute. reflexivity.
  - vm_compute. reflexivity.
  - vm_compute. reflexivity.
  - reflexivity.
  - exists id. exact Htimers.
Defined.

(** ** More on the query *)

(** A property of an object literal with distinct literal keys. *)
Ltac literal_lookup :=
  unfold object_literal; cbn [foldl fst snd];
  repeat (rewrite lookup_insert_ne
            by (let H := fresh in intros H; vm_compute in H; discriminate H));
  first [apply lookup_insert_eq | apply lookup_empty].

Lemma getApiListType_cases (origin : jsval) :
  getApiListType origin = {| list_name := js "watchlist"; prefix := js "wl" |}
  \/ getApiListType origin
     = {| list_name := js "recentchanges"; prefix := js "rc" |}.
Proof. unfold getApiListType. destruct (strict_eq_string _ _); auto. Qed.

(** X9: whatever the preferences and the site, the request asks the list
    of [getApiListType] for changes that are not patrolled, with the
    parameters under the prefix of that list: the types [new] alone when
    [newOnly] is set and [edit] and [new] otherwise, the five properties,
    the direction and the limit of the preferences, and the frequency as
    the age a cached answer may have. *)
Theorem unpatrolled_request_parameters (site : Site)
    (prefs : gmap (list N) jsval) :
  let listType := getApiListType (get_prop prefs (js "origin")) in
  let request := unpatrolled_request site prefs in
  request !! js "action" = Some (JStr (js "query"))
  /\ request !! js "list" = Some (JStr (list_name listType))
  /\ request !! (prefix listType ++ js "show")
     = Some (JStr (js "!patrolled"))
  /\ request !! (prefix listType ++ js "type")
     = Some (if truthy (get_prop prefs (js "newOnly")) then JStr (js "new")
             else JArr [JStr (js "edit"); JStr (js "new")])
  /\ request !! (prefix listType ++ js "prop")
     = Some (JArr [ JStr (js "title"); JStr (js "timestamp");
                    JStr (js "ids"); JStr (js "sizes"); JStr (js "tags") ])
  /\ request !! (prefix listType ++ js "dir")
     = Some (get_prop prefs (js "direction"))
  /\ request !! (prefix listType ++ js "limit")
     = Some (get_prop prefs (js "quantity"))
  /\ request !! js "maxage" = Some (get_prop prefs (js "frequency"))
  /\ request !! js "smaxage" = Some (get_prop prefs (js "frequency")).
Proof.
  intros listType request. subst request. unfold unpatrolled_request.
  fold listType.
  destruct (getApiListType_cases (get_prop prefs (js "origin"))) as [E|E];
    fold listType in E; rewrite E; cbn [list_name prefix];
    destruct (strict_eq_string _ (js "content"));
    [|destruct (strict_eq_string _ (js "noncontent"))| |
      destruct (strict_eq_string _ (js "noncontent"))];
    repeat split;
    try (rewrite lookup_insert_ne
           by (let H := fresh in
               intros H; vm_compute in H; discriminate H));
    literal_lookup.
Qed.

(** X10: the request restricts the namespaces only when the preference
    [namespace] is the string [content] or [noncontent]: for [content] to
    the content namespaces as the site gives them, for any other value,
    [all] included, not at all. *)
Theorem unpatrolled_request_namespace (site : Site)
    (prefs : gmap (list N) jsval) :
  let listType := getApiListType (get_prop prefs (js "origin")) in
  let key := prefix listType ++ js "namespace" in
  (get_prop prefs (js "namespace") = JStr (js "content") ->
   unpatrolled_request site prefs !! key
   = Some (namespace_array (wgContentNamespaces site)))
  /\ (get_prop prefs (js "namespace") <> JStr (js "content") ->
      get_prop prefs (js "namespace") <> JStr (js "noncontent") ->
      unpatrolled_request site prefs !! key = None).
Proof.
  intros listType key. subst key. unfold unpatrolled_request.
  fold listType. split.
  - intros ->.
    change (strict_eq_string (JStr (js "content")) (js "content")) with true.
    cbv iota. apply lookup_insert_eq.
  - intros Hc Hn.
    assert (Hne : forall s, get_prop prefs (js "namespace") <> JStr s ->
                            strict_eq_string (get_prop prefs (js "namespace")) s
                            = false).
    { intros s Hs. unfold strict_eq_string.
      destruct (get_prop prefs (js "namespace")); try done.
      apply bool_decide_eq_false_2. congruence. }
    rewrite !Hne by done.
    destruct (getApiListType_cases (get_prop prefs (js "origin"))) as [E|E];
      fold listType in E; rewrite E; cbn [list_name prefix];
      literal_lookup.
Qed.

Lemma unpatrolled_request_namespace_witness :
  unpatrolled_request plain_site
    (<[js "namespace" := JStr (js "content")]> defaultPrefs)
    !! js "rcnamespace"
  = Some (namespace_array [0%Z])
  /\ unpatrolled_request plain_site defaultPrefs !! js "rcnamespace" = None.
Proof.
  split.
  - exact (proj1 (unpatrolled_request_namespace plain_site
                    (<[js "namespace" := JStr (js "content")]> defaultPrefs))
             eq_refl).
  - refine (proj2 (unpatrolled_request_namespace plain_site defaultPrefs)
              _ _);
      intros H; vm_compute in H; discriminate H.
Defined.

(** ** More on rendering *)

Lemma has_dangerous_tag_array (site : Site) (data : change)
    (l : list jsval) :
  get_prop (getConf site) (js "dangerousTags") = JArr l ->
  exists dangerous,
    has_dangerous_tag site data = Normal dangerous
    /\ (dangerous = true <-> exists s, JStr s ∈ l /\ s ∈ tags data).
Proof.
  intros Hl. unfold has_dangerous_tag. rewrite Hl.
  eexists. split; [reflexivity|].
  rewrite negb_true_iff, Nat.eqb_neq. split.
  - intros Hlen.
    destruct (List.filter (includes (tags data)) l) as [|x r] eqn:E;
      [done|].
    assert (Hx : In x (List.filter (includes (tags data)) l))
      by (rewrite E; by left).
    apply filter_In in Hx as [Hin Hinc].
    destruct x as [| |b|n|s|l'|o]; try discriminate Hinc.
    exists s. split; [by apply list_elem_of_In|].
    by apply bool_decide_eq_true in Hinc.
  - intros (s & Hs & Htag) Hlen.
    assert (Hx : In (JStr s) (List.filter (includes (tags data)) l)).
    { apply filter_In. split; [by apply list_elem_of_In|].
      by apply bool_decide_eq_true_2. }
    by destruct (List.filter (includes (tags data)) l).
Qed.

Lemma sizeDiff_classes_among (data : change) (c : list N) :
  c ∈ (sizeDiff_classes data).1 ->
  c ∈ [js "userjs-rcp-item"; js "userjs-rcp-diff-positive";
       js "userjs-rcp-diff-negative"; js "userjs-rcp-diff-large"].
Proof.
  rewrite sizeDiff_classes_eq.
  destruct (_ >? 0)%Z; [destruct (_ >=? 500)%Z|destruct (_ <? 0)%Z];
    cbn [fst app]; rewrite !elem_of_cons, elem_of_nil; tauto.
Qed.

(** X11: the link of a change is marked as dangerous, by the class
    [userjs-rcp-item-highlight] and the indicator, exactly when one of the
    site's dangerous tags is among the tags of the change, and as a new
    page, by the class [userjs-rcp-item-new] and the indicator, exactly
    when the type of the change is [new]; neither depends on the size of
    the change or on the other. *)
Theorem createPortletEntry_decorations (site : Site) (data : change)
    (p : page) (l : list jsval) :
  get_prop (getConf site) (js "dangerousTags") = JArr l ->
  exists it,
    (createPortletEntry site data p).1 = Normal tt
    /\ portlet (exec (createPortletEntry site data) p)
       = portlet p ++ [ChangeLink it]
    /\ (js "userjs-rcp-item-highlight" ∈ item_classes it
        <-> exists s, JStr s ∈ l /\ s ∈ tags data)
    /\ (is_Some (item_indicator_highlight it)
        <-> exists s, JStr s ∈ l /\ s ∈ tags data)
    /\ (js "userjs-rcp-item-new" ∈ item_classes it
        <-> type data = js "new")
    /\ (is_Some (item_indicator_new it) <-> type data = js "new").
Proof.
  intros Hl.
  destruct (has_dangerous_tag_array site data l Hl)
    as (dangerous & Hd & Hiff).
  eexists. unfold exec. rewrite (createPortletEntry_eq _ _ _ _ Hd).
  split; [done|]. split; [done|].
  cbn [item_classes item_indicator_highlight item_indicator_new].
  rewrite <-Hiff.
  assert (Hhl : js "userjs-rcp-item-highlight" ∉ (sizeDiff_classes data).1).
  { intros H%sizeDiff_classes_among. not_elem_of_literals H. }
  assert (Hnew : js "userjs-rcp-item-new" ∉ (sizeDiff_classes data).1).
  { intros H%sizeDiff_classes_among. not_elem_of_literals H. }
  rewrite !elem_of_app.
  destruct (decide (type data = js "new")) as [Ht|Ht];
    [rewrite (bool_decide_eq_true_2 _ Ht)
    |rewrite (bool_decide_eq_false_2 _ Ht)];
    destruct dangerous;
    rewrite ?elem_of_nil, ?list_elem_of_singleton;
    repeat split; try tauto; try done;
    try (intros [?|[H|H]]; try done; vm_compute in H; discriminate H);
    try (by intros [? [=]]); try (by intros _; eexists).
Qed.

Lemma createPortletEntry_decorations_witness :
  exists it,
    portlet (exec (createPortletEntry plain_site tagged_new_page)
               running_page)
    = portlet running_page ++ [ChangeLink it]
    /\ js "userjs-rcp-item-highlight" ∈ item_classes it
    /\ js "userjs-rcp-item-new" ∈ item_classes it.
Proof.
  destruct (createPortletEntry_decorations plain_site tagged_new_page
              running_page
              [ JStr (js "mw-blank");
                JStr (js "mw-changed-redirect-target");
                JStr (js "mw-manual-revert");
                JStr (js "mw-replace");
                JStr (js "mw-undo") ])
    as (it & _ & Hportlet & Hhl & _ & Hnew & _).
  - reflexivity.
  - exists it. split; [exact Hportlet|]. split.
    + apply Hhl. exists (js "mw-undo"). split.
      * rewrite !elem_of_cons. tauto.
      * elem_of_literals.
    + apply Hnew. reflexivity.
Defined.

(** X12: when [dangerousTags] of the configuration is not an array,
    [createPortletEntry] throws a TypeError when it comes to the tags.  By
    then the link of the change is in the list and holds its title span,
    with the size label and, for a new page, the indicator; its classes
    and its time are not added.  The callback of a non-empty answer stops
    there: the list gets this one link and none for the changes after
    it. *)
Theorem createPortletEntry_dangerousTags_not_array (site : Site)
    (prefs : gmap (list N) jsval) (initial : bool)
    (data : gmap (list N) (list change)) (c : change) (rest : list change)
    (p : page) :
  (forall l, get_prop (getConf site) (js "dangerousTags") <> JArr l) ->
  data !! list_name (getApiListType (get_prop prefs (js "origin")))
  = Some (c :: rest) ->
  let link :=
    TitledLink (title c) (revid c) (sizeDiff_classes c).2
      (if bool_decide (type c = js "new")
       then Some (msg site (js "userjs-rcp-indicator-new")) else None) in
  createPortletEntry site c p
  = (Throw TypeError, set_portlet (portlet p ++ [link]) p)
  /\ (populateList_done site prefs initial data p).1 = Throw TypeError
  /\ portlet (exec (populateList_done site prefs initial data) p)
     = (if initial then portlet p else []) ++ [link].
Proof.
  intros Hconf Hdata link.
  assert (Hd : has_dangerous_tag site c = Throw TypeError).
  { unfold has_dangerous_tag.
    destruct (get_prop (getConf site) (js "dangerousTags")) eqn:E;
      try done. by destruct (Hconf l). }
  assert (Hc : forall q, createPortletEntry site c q
                 = (Throw TypeError, set_portlet (portlet q ++ [link]) q)).
  { intros q. subst link. unfold createPortletEntry.
    destruct (sizeDiff_classes c) as [classes diffsize].
    unfold bind, addPortletLink, decorate_last, modify, lift, gets, ret.
    destruct (bool_decide (type c = js "new")); rewrite Hd;
      cbn [fst snd portlet set_portlet];
      rewrite !removelast_last; reflexivity. }
  split; [apply Hc|].
  unfold populateList_done, exec. rewrite Hdata.
  cbn [length Nat.eqb for_each].
  destruct initial; unfold bind, ret, modify; cbn [fst snd];
    rewrite Hc; done.
Qed.

Lemma createPortletEntry_dangerousTags_not_array_witness :
  portlet (exec (populateList_done misconfigured_site defaultPrefs false
                   {[ js "recentchanges" :=
                        [shrinking_edit; tagged_new_page] ]})
             running_page)
  = [TitledLink (js "Main Page") 12345 (JStr (8722%N :: js "600")) None].
Proof.
  apply (createPortletEntry_dangerousTags_not_array misconfigured_site
           defaultPrefs false
           {[ js "recentchanges" := [shrinking_edit; tagged_new_page] ]}
           shrinking_edit [tagged_new_page] running_page).
  - intros l H. vm_compute in H. discriminate H.
  - reflexivity.
Defined.

Lemma set_portlet_same (p : page) : set_portlet (portlet p) p = p.
Proof. by destruct p. Qed.

Lemma for_each_createPortletEntry (site : Site) (l : list jsval)
    (changeList : list change) :
  get_prop (getConf site) (js "dangerousTags") = JArr l ->
  forall p, exists items,
    for_each (createPortletEntry site) changeList p
    = (Normal tt, set_portlet (portlet p ++ (ChangeLink <$> items)) p)
    /\ Forall2 (fun c it =>
                  item_title it = title c /\ item_diff it = revid c
                  /\ item_diffsize it = (sizeDiff_classes c).2
                  /\ item_fromNow it = fromNow site (timestamp c) (now p))
         changeList items.
Proof.
  intros Hl. induction changeList as [|c rest IH]; intros p.
  - exists []. split; [|constructor].
    simpl. by rewrite app_nil_r, set_portlet_same.
  - destruct (has_dangerous_tag_array site c l Hl) as (dangerous & Hd & _).
    pose proof (createPortletEntry_eq site c p dangerous Hd) as Hc.
    match type of Hc with _ = (_, set_portlet (_ ++ [ChangeLink ?x]) _) =>
      set (it := x) in *
    end.
    destruct (IH (set_portlet (portlet p ++ [ChangeLink it]) p))
      as (items & Hrest & Hall).
    exists (it :: items). split; [|by constructor].
    cbn [for_each]. rewrite (bind_normal _ _ _ _ _ Hc), Hrest.
    cbn [portlet set_portlet]. unfold set_portlet. cbn.
    by rewrite <-app_assoc.
Qed.

(** X13: the callback of an answer with changes puts one link per
    change into the list, in the order of the answer, each to the diff of
    its revision and with its size label; a call that is not the first
    replaces what the list held and ends the pending state, the first
    call adds to what is there. *)
Theorem populateList_done_renders_all (site : Site)
    (prefs : gmap (list N) jsval) (initial : bool)
    (data : gmap (list N) (list change)) (changeList : list change)
    (l : list jsval) (p : page) :
  get_prop (getConf site) (js "dangerousTags") = JArr l ->
  data !! list_name (getApiListType (get_prop prefs (js "origin")))
  = Some changeList ->
  changeList <> [] ->
  exists items,
    (populateList_done site prefs initial data p).1 = Normal tt
    /\ portlet (exec (populateList_done site prefs initial data) p)
       = (if initial then portlet p else []) ++ (ChangeLink <$> items)
    /\ Forall2 (fun c it =>
                  item_title it = title c /\ item_diff it = revid c
                  /\ item_diffsize it = (sizeDiff_classes c).2
                  /\ item_fromNow it = fromNow site (timestamp c) (now p))
         changeList items
    /\ pending (exec (populateList_done site prefs initial data) p)
       = (if initial then pending p else false).
Proof.
  intros Hl Hdata Hne.
  unfold populateList_done, exec. rewrite Hdata.
  assert ((length changeList =? 0)%nat = false) as ->
    by (destruct changeList; [done|reflexivity]).
  destruct initial.
  - destruct (for_each_createPortletEntry site l changeList Hl p)
      as (items & Hrest & Hall).
    exists items. unfold bind, ret. rewrite Hrest. by repeat split.
  - destruct (for_each_createPortletEntry site l changeList Hl
                (set_pending false (set_portlet [] p)))
      as (items & Hrest & Hall).
    exists items. unfold bind, modify. rewrite Hrest. by repeat split.
Qed.

Lemma populateList_done_renders_all_witness :
  exists items,
    portlet (exec (populateList_done plain_site defaultPrefs false
                     {[ js "recentchanges" :=
                          [shrinking_edit; tagged_new_page] ]})
               running_page)
    = ChangeLink <$> items
    /\ length items = 2.
Proof.
  destruct (populateList_done_renders_all plain_site defaultPrefs false
              {[ js "recentchanges" := [shrinking_edit; tagged_new_page] ]}
              [shrinking_edit; tagged_new_page]
              [ JStr (js "mw-blank");
                JStr (js "mw-changed-redirect-target");
                JStr (js "mw-manual-revert");
                JStr (js "mw-replace");
                JStr (js "mw-undo") ]
              running_page)
    as (items & _ & Hportlet & Hall & _).
  - reflexivity.
  - reflexivity.
  - discriminate.
  - exists items. split; [exact Hportlet|].
    symmetry. exact (Forall2_length _ _ _ Hall).
Defined.

(** X14: the label of the size of a change is a plus sign, or the minus
    sign U+2212, and the decimal digits of the difference in bytes; for no
    difference it is the number 0. *)
Theorem sizeDiff_label (data : change) :
  let d := (newlen data - oldlen data)%Z in
  let label := (sizeDiff_classes data).2 in
  ((0 < d)%Z ->
   exists ds, label = JStr (43%N :: ds)
              /\ Forall (fun c => is_digit c = true) ds
              /\ Z.of_N (decimal_value ds) = d)
  /\ ((d < 0)%Z ->
      exists ds, label = JStr (8722%N :: ds)
                 /\ Forall (fun c => is_digit c = true) ds
                 /\ Z.of_N (decimal_value ds) = (- d)%Z)
  /\ (d = 0%Z -> label = JNum (Int 0)).
Proof.
  intros d label. subst label. rewrite sizeDiff_classes_eq. fold d.
  split; [|split].
  - intros Hd. destruct (Z.gtb_spec d 0); [|lia].
    destruct (Z_toString_digits d) as (Hdig & _ & Hv); [lia|].
    by eexists.
  - intros Hd. destruct (Z.gtb_spec d 0); [lia|].
    destruct (Z.ltb_spec d 0); [|lia].
    destruct (Z_toString_digits (Z.abs d)) as (Hdig & _ & Hv); [lia|].
    eexists. split; [done|]. split; [done|]. lia.
  - intros ->. reflexivity.
Qed.

Lemma sizeDiff_label_witness :
  exists ds,
    (sizeDiff_classes shrinking_edit).2 = JStr (8722%N :: ds)
    /\ Z.of_N (decimal_value ds) = 600%Z.
Proof.
  destruct (proj1 (proj2 (sizeDiff_label shrinking_edit)))
    as (ds & Hlabel & _ & Hvalue).
  - reflexivity.
  - exists ds. split; [exact Hlabel|exact Hvalue].
Defined.

(** X15: a poll that is not the first marks the list as pending when it
    sends its request.  The [fail] callback leaves the mark, so after a
    failed poll the list stays pending; the [done] callback of a poll that
    is not the first removes it, whether the rendering succeeds or
    throws. *)
Theorem failed_poll_stays_pending (site : Site) (p : page)
    (prefs : gmap (list N) jsval) (error : list N) (errorObj : jsval) :
  hidden p = false ->
  getPreferences site JUndefined p = (Normal prefs, p) ->
  let p1 := exec (populateList site false) p in
  let p2 := exec (populateList_fail error errorObj) p1 in
  pending p1 = true
  /\ pending p2 = true
  /\ forall prefs' data q,
       pending (exec (populateList_done site prefs' false data) q) = false.
Proof.
  intros Hh Hp p1 p2.
  assert (Hp1 : p1 = record_call (ApiGet (unpatrolled_request site prefs))
                       (set_lastCheckedTime (now p) (set_pending true p))).
  { subst p1. unfold exec. by rewrite (populateList_visible _ _ _ prefs). }
  split; [by rewrite Hp1|]. split; [by subst p2; rewrite Hp1|].
  intros prefs' data q. unfold populateList_done.
  rewrite exec_bind. unfold bind at 1, modify. cbn [fst snd].
  match goal with |- pending (exec ?m ?q0) = _ =>
    assert (Hk : keeps (unchanged pending) m);
      [unfold addPortletLink; keeps_steps|exact (Hk q0)]
  end.
Qed.

Lemma failed_poll_stays_pending_witness :
  pending (exec (populateList_fail (js "http") JNull)
             (exec (populateList plain_site false) running_page))
  = true.
Proof.
  apply (proj1 (proj2 (failed_poll_stays_pending plain_site running_page
                         defaultPrefs (js "http") JNull
                         eq_refl
                         ltac:(vm_compute; reflexivity)))).
Defined.

(** ** More on the page over time *)

(** X16: while the tab is hidden the script is idle: timers that come
    due send no request, whatever the stored option holds, and the calls
    made, the time of the last check, the list, its pending state and the
    timers stay as they were. *)
Theorem hidden_tab_is_idle (site : Site) (es : list event) (p : page) :
  hidden p = true ->
  Forall (fun e => in_background e = true) es ->
  let q := run site es p in
  hidden q = true
  /\ calls q = calls p
  /\ lastCheckedTime q = lastCheckedTime p
  /\ portlet q = portlet p
  /\ pending q = pending p
  /\ timers q = timers p
  /\ intervalId q = intervalId p
  /\ userjs_rcp q = userjs_rcp p.
Proof.
  intros Hh Hes. revert p Hh.
  induction Hes as [|e es He _ IH]; intros p Hh; [done|].
  cbn [run foldl]. fold (run site es (exec (handle site e) p)).
  assert (Hstep : hidden (exec (handle site e) p) = true
                  /\ calls (exec (handle site e) p) = calls p
                  /\ lastCheckedTime (exec (handle site e) p)
                     = lastCheckedTime p
                  /\ portlet (exec (handle site e) p) = portlet p
                  /\ pending (exec (handle site e) p) = pending p
                  /\ timers (exec (handle site e) p) = timers p
                  /\ intervalId (exec (handle site e) p) = intervalId p
                  /\ userjs_rcp (exec (handle site e) p) = userjs_rcp p).
  { destruct e as [t|id| | |[|]| | |]; try discriminate He.
    - by cbn.
    - unfold exec. cbn [handle]. rewrite bind_gets.
      destruct (bool_decide _); [rewrite populateList_hidden|]; done.
    - by cbn. }
  destruct Hstep as (Hh' & Hc & Hl & Hp & Hpe & Ht & Hi & Hu).
  destruct (IH _ Hh') as (? & ? & ? & ? & ? & ? & ? & ?).
  cbn zeta. repeat split; congruence.
Qed.

Lemma hidden_tab_is_idle_witness :
  calls (run plain_site [Tick 100000; TimerFires 1; TimerFires 1]
           (exec (handle plain_site (VisibilityChange true)) running_page))
  = calls running_page.
Proof.
  apply (hidden_tab_is_idle plain_site
           [Tick 100000; TimerFires 1; TimerFires 1]
           (exec (handle plain_site (VisibilityChange true)) running_page)).
  - reflexivity.
  - repeat constructor.
Defined.

Lemma frequency_ms_throw (site : Site) (p : page) (e : error) :
  parse_userjs_rcp (userjs_rcp p) = Throw e ->
  frequency_ms site p = (Throw e, p).
Proof.
  intros H. unfold frequency_ms, bind.
  by rewrite (getPreferences_throw _ _ _ e H).
Qed.

Lemma populateList_throw (site : Site) (initial : bool) (p : page)
    (e : error) :
  parse_userjs_rcp (userjs_rcp p) = Throw e ->
  exec (populateList site initial) p = p.
Proof.
  intros H. unfold exec, populateList. rewrite bind_gets.
  destruct (hidden p); [done|].
  unfold bind. by rewrite (getPreferences_throw _ _ _ e H).
Qed.

Lemma refreshList_throw (site : Site) (p : page) (e : error) :
  parse_userjs_rcp (userjs_rcp p) = Throw e ->
  refreshList site p = (Throw e, exec (clearInterval (intervalId p)) p).
Proof.
  intros H. unfold refreshList. rewrite bind_gets.
  set (p1 := exec (clearInterval (intervalId p)) p).
  assert (H1 : clearInterval (intervalId p) p = (Normal tt, p1))
    by reflexivity.
  rewrite (bind_normal _ _ _ _ _ H1).
  assert (Hu : parse_userjs_rcp (userjs_rcp p1) = Throw e) by exact H.
  destruct (hidden p1) eqn:Hh.
  - rewrite (bind_normal _ _ _ _ _ (populateList_hidden site false p1 Hh)).
    unfold bind. by rewrite (frequency_ms_throw _ _ e Hu).
  - assert (E : populateList site false p1 = (Throw e, p1)).
    { unfold populateList. rewrite bind_gets, Hh.
      unfold bind. by rewrite (getPreferences_throw _ _ _ e Hu). }
    unfold bind. by rewrite E.
Qed.

(** With a stored option that does not parse, a handler leaves the option
    and the absence of timers as they are and makes no call that sends or
    arms. *)
Lemma handle_malformed (site : Site) (s : list N) (e : error) (ev : event)
    (p : page) :
  JSON_parse s = Throw e ->
  userjs_rcp p = Some (Raw s) ->
  timers p = ∅ ->
  intervalId p = None ->
  Forall (fun c => sends_or_arms c = false) (calls p) ->
  let q := exec (handle site ev) p in
  userjs_rcp q = Some (Raw s)
  /\ timers q = ∅
  /\ intervalId q = None
  /\ Forall (fun c => sends_or_arms c = false) (calls q).
Proof.
  intros Hs Hu Ht Hi Hc.
  assert (Hthrow : forall p', userjs_rcp p' = Some (Raw s) ->
            parse_userjs_rcp (userjs_rcp p') = Throw e).
  { intros p' ->. exact Hs. }
  destruct ev as [t|id|prefs initial data|error errorObj|h|d action| |];
    cbn zeta.
  - by cbn.
  - unfold exec. cbn [handle]. rewrite bind_gets, Ht, lookup_empty.
    rewrite bool_decide_eq_false_2 by (by intros [? [=]]). by cbn.
  - cbn [handle].
    pose proof (keeps_populateList_done
                  (fun p => (userjs_rcp p, timers p, intervalId p, calls p))
                  site prefs initial data
                  ltac:(done) ltac:(done) p) as Hk.
    unfold unchanged in Hk. injection Hk as -> -> -> ->. done.
  - cbn. repeat split; try done.
    apply Forall_app. split; [done|]. by repeat constructor.
  - unfold exec. cbn [handle].
    unfold bind at 1, modify. cbn [fst snd].
    unfold visibilitychange. rewrite bind_gets. cbn [hidden set_surroundings].
    destruct h; cbv beta iota; [by cbn|].
    rewrite !bind_gets. unfold bind. cbn.
    rewrite (frequency_ms_throw _ _ e) by (by apply Hthrow). by cbn.
  - unfold exec. cbn [handle]. unfold getActionProcess.
    destruct (_ || _); [|done].
    unfold bind. by rewrite (getPreferences_throw _ _ _ e (Hthrow _ Hu)).
  - assert (Hq : exec (handle site PostDone) p
                 = exec (setPreferences_fail site)
                     (exec (clearInterval (intervalId p))
                        (record_call DialogClose p))).
    { unfold exec at 1. cbn [handle]. unfold try_catch.
      assert (Hthen : setPreferences_then site p
                      = refreshList site (record_call DialogClose p))
        by reflexivity.
      rewrite Hthen, (refreshList_throw site _ e) by (by apply Hthrow).
      reflexivity. }
    rewrite Hq, Hi. cbn. repeat split; try done.
    rewrite !Forall_app. by repeat constructor.
  - cbn. repeat split; try done.
    apply Forall_app. split; [done|]. by repeat constructor.
Qed.

(** X17: when the stored option is a text that [JSON.parse] rejects,
    the gadget never gets going, whatever happens on the page: no request
    is sent to the API, no timer is armed, and the option is never written
    again, so neither saving nor resetting in the options dialog repairs
    it. *)
Theorem malformed_option_stops_gadget (site : Site) (s : list N)
    (e : error) (h : bool) (t : Z) (es : list event) :
  JSON_parse s = Throw e ->
  let q := run site es (exec (main site) (start_page (Some (Raw s)) h t)) in
  userjs_rcp q = Some (Raw s)
  /\ timers q = ∅
  /\ Forall (fun c => sends_or_arms c = false) (calls q).
Proof.
  intros Hs.
  assert (Hmain : exec (main site) (start_page (Some (Raw s)) h t)
                  = start_page (Some (Raw s)) h t).
  { unfold main. rewrite exec_bind.
    pose proof (populateList_throw site true
                  (start_page (Some (Raw s)) h t) e Hs) as Hpop.
    unfold exec in Hpop.
    destruct (populateList site true _) as [[[]|e'] p2];
      cbn [snd] in Hpop; subst p2; [|done].
    unfold exec, bind.
    by rewrite (frequency_ms_throw site (start_page (Some (Raw s)) h t) e Hs). }
  rewrite Hmain. cbn zeta.
  assert (Hinv : forall p,
            userjs_rcp p = Some (Raw s) -> timers p = ∅ ->
            intervalId p = None ->
            Forall (fun c => sends_or_arms c = false) (calls p) ->
            userjs_rcp (run site es p) = Some (Raw s)
            /\ timers (run site es p) = ∅
            /\ Forall (fun c => sends_or_arms c = false)
                 (calls (run site es p))).
  { induction es as [|ev es IH]; intros p Hu Ht Hi Hc; [done|].
    destruct (handle_malformed site s e ev p Hs Hu Ht Hi Hc)
      as (Hu' & Ht' & Hi' & Hc').
    exact (IH _ Hu' Ht' Hi' Hc'). }
  by apply Hinv.
Qed.

Lemma malformed_option_stops_gadget_witness :
  userjs_rcp (run plain_site
                [DialogAction {| newPrefs := ∅; checkbox := false |}
                   (js "reset");
                 PostDone; VisibilityChange false]
                (exec (main plain_site) malformed_page))
  = Some (Raw (js "{")).
Proof.
  apply (malformed_option_stops_gadget plain_site (js "{") SyntaxError
           false 0
           [DialogAction {| newPrefs := ∅; checkbox := false |} (js "reset");
            PostDone; VisibilityChange false]).
  vm_compute. reflexivity.
Defined.


